(** * Verification of the text-to-ZIP converter (fileProcessing)

    The development embeds the two core functions of the converter,
    [convertTextToZipBlob] and [getZipFileList], together with the platform
    primitives they call ([String.prototype.split], [atob], [DataView],
    [Uint8Array.prototype.subarray], [TextDecoder]), and proves the
    properties stated for them.

    Conventions of the embedding:
    - a JavaScript string is the list of its UTF-16 code units ([N]);
    - a byte buffer is a [list byte];
    - offsets and lengths are [Z] (every number the code computes is an
      integer far below 2^53, so IEEE doubles are exact on them);
    - a JavaScript exception is the [Throw] case of [result]. *)

From Stdlib Require Import String Ascii.
From Stdlib Require Import Strings.Byte.
From Stdlib Require Import DecimalString.
From Stdlib Require Import List NArith ZArith Bool Lia.
Import ListNotations.

(** ** Exceptions and the result monad *)

Inductive exn : Type :=
| Error (message : string)
| RangeError
| InvalidCharacterError.

Inductive result (A : Type) : Type :=
| Ok (a : A)
| Throw (e : exn).

Arguments Ok {A} a.
Arguments Throw {A} e.

Definition bind {A B : Type} (c : result A) (k : A -> result B) : result B :=
  match c with
  | Ok a => k a
  | Throw e => Throw e
  end.

(** [try { body } catch (error) { handler }] *)
Definition try_catch {A : Type} (body : result A) (handler : exn -> result A)
  : result A :=
  match body with
  | Ok a => Ok a
  | Throw e => handler e
  end.

Notation "x <- c ;; k" := (bind c (fun x => k))
  (at level 61, c at next level, right associativity).

(** ** JavaScript strings *)

Module JSString.
Local Open Scope N_scope.

Definition code_unit := N.
Definition jsstring := list code_unit.

(** A string literal of ASCII characters. *)
Definition lit (s : string) : jsstring :=
  map N_of_ascii (list_ascii_of_string s).

Definition LF : code_unit := 10.
Definition CR : code_unit := 13.

(** The class [\s] of ECMAScript regular expressions: WhiteSpace and
    LineTerminator code points. *)
Definition is_whitespace (c : code_unit) : bool :=
  (c =? 0x09) || (c =? 0x0A) || (c =? 0x0B) || (c =? 0x0C) || (c =? 0x0D)
  || (c =? 0x20) || (c =? 0xA0) || (c =? 0x1680)
  || ((0x2000 <=? c) && (c <=? 0x200A))
  || (c =? 0x2028) || (c =? 0x2029) || (c =? 0x202F) || (c =? 0x205F)
  || (c =? 0x3000) || (c =? 0xFEFF).

Definition starts_with_LF (s : jsstring) : bool :=
  match s with
  | c :: _ => c =? LF
  | [] => false
  end.

Definition push_front (c : code_unit) (ls : list jsstring) : list jsstring :=
  match ls with
  | l :: rest => (c :: l) :: rest
  | [] => [[c]]
  end.

(** [s.split(/\r?\n/)]: a line ends at every LF; a CR directly before that
    LF belongs to the separator.  The last piece is kept even when empty,
    so the result always has at least one element. *)
Fixpoint split_lines (s : jsstring) : list jsstring :=
  match s with
  | [] => [[]]
  | c :: rest =>
      if c =? LF then [] :: split_lines rest
      else if (c =? CR) && starts_with_LF rest then split_lines rest
      else push_front c (split_lines rest)
  end.

(** [s.replace(/\s/g, '')] *)
Definition remove_whitespace (s : jsstring) : jsstring :=
  filter (fun c => negb (is_whitespace c)) s.

(** [!s] on a string: true exactly on the empty string. *)
Definition is_falsy (s : jsstring) : bool :=
  match s with
  | [] => true
  | _ :: _ => false
  end.
End JSString.
Import JSString.

(** ** Base64: the platform's [atob] and the RFC 4648 encoder *)

Module Base64.
Local Open Scope N_scope.

Definition PAD : code_unit := 61.

(** Position of a code unit in the RFC 4648 Table 1 alphabet. *)
Definition b64_index (c : code_unit) : option N :=
  if (65 <=? c) && (c <=? 90) then Some (c - 65)
  else if (97 <=? c) && (c <=? 122) then Some (c - 97 + 26)
  else if (48 <=? c) && (c <=? 57) then Some (c - 48 + 52)
  else if c =? 43 then Some 62
  else if c =? 47 then Some 63
  else None.

(** The character of a 6-bit value in the same table. *)
Definition b64_char (n : N) : code_unit :=
  if n <? 26 then 65 + n
  else if n <? 52 then 97 + (n - 26)
  else if n <? 62 then 48 + (n - 52)
  else if n =? 62 then 43
  else 47.

Definition is_ascii_whitespace (c : code_unit) : bool :=
  (c =? 0x09) || (c =? 0x0A) || (c =? 0x0C) || (c =? 0x0D) || (c =? 0x20).

(** Removes one trailing "=" if there is one. *)
Definition drop_pad (data : jsstring) : option jsstring :=
  match rev data with
  | c :: r => if c =? PAD then Some (rev r) else None
  | [] => None
  end.

(** Step 2 of forgiving-base64 decode: when the length is a multiple of
    four, one or two trailing "=" are removed. *)
Definition strip_padding (data : jsstring) : jsstring :=
  if N.of_nat (length data) mod 4 =? 0 then
    match drop_pad data with
    | Some d1 =>
        match drop_pad d1 with
        | Some d2 => d2
        | None => d1
        end
    | None => data
    end
  else data.

(** Step 4 together with the table lookup of the decoding loop: fails as
    soon as one code unit is outside the alphabet. *)
Fixpoint sextets (data : jsstring) : option (list N) :=
  match data with
  | [] => Some []
  | c :: rest =>
      match b64_index c, sextets rest with
      | Some n, Some ns => Some (n :: ns)
      | _, _ => None
      end
  end.

(** The decoding loop: six bits are appended to [buffer] per character;
    at 24 bits three bytes are emitted.  At the end 12 bits give one byte
    (the last four bits are discarded) and 18 bits give two (the last two
    are discarded). *)
Fixpoint decode_loop (buffer bits : N) (data : list N) : jsstring :=
  match data with
  | [] =>
      if bits =? 12 then [buffer / 16]
      else if bits =? 18 then [buffer / 4 / 256; (buffer / 4) mod 256]
      else []
  | n :: rest =>
      let buffer := buffer * 64 + n in
      let bits := bits + 6 in
      if bits =? 24
      then [buffer / 65536; (buffer / 256) mod 256; buffer mod 256]
             ++ decode_loop 0 0 rest
      else decode_loop buffer bits rest
  end.

(** Forgiving-base64 decode of the Infra standard.  Lengths are counted in
    code units: a string with a surrogate fails at the alphabet check
    whatever its length, so counting code points gives the same result. *)
Definition forgiving_base64_decode (data : jsstring) : option jsstring :=
  let data := filter (fun c => negb (is_ascii_whitespace c)) data in
  let data := strip_padding data in
  if N.of_nat (length data) mod 4 =? 1 then None
  else
    match sextets data with
    | Some ns => Some (decode_loop 0 0 ns)
    | None => None
    end.

(** [atob(data)]: the decoded binary string, or an "InvalidCharacterError"
    exception. *)
Definition atob (data : jsstring) : result jsstring :=
  match forgiving_base64_decode data with
  | Some s => Ok s
  | None => Throw InvalidCharacterError
  end.

(** The producer's side: base64 encoding with the RFC 4648 alphabet and
    padding, three bytes to four characters. *)
Fixpoint base64_encode (bs : list byte) : jsstring :=
  match bs with
  | [] => []
  | [x] =>
      let x := Byte.to_N x in
      [b64_char (x / 4); b64_char (x mod 4 * 16); PAD; PAD]
  | [x; y] =>
      let x := Byte.to_N x in
      let y := Byte.to_N y in
      [b64_char (x / 4); b64_char (x mod 4 * 16 + y / 16);
       b64_char (y mod 16 * 4); PAD]
  | x :: y :: z :: rest =>
      let x := Byte.to_N x in
      let y := Byte.to_N y in
      let z := Byte.to_N z in
      [b64_char (x / 4); b64_char (x mod 4 * 16 + y / 16);
       b64_char (y mod 16 * 4 + z / 64); b64_char (z mod 64)]
        ++ base64_encode rest
  end.
End Base64.

(** ** Binary data: Blob, Uint8Array, DataView *)

Record Blob : Type := mkBlob { blob_bytes : list byte; blob_type : string }.

(** [blob.arrayBuffer()] *)
Definition arrayBuffer (blob : Blob) : list byte := blob_bytes blob.

Module Uint8Array.
(** Storing a number into a [Uint8Array] element keeps it modulo 256. *)
Definition to_uint8 (c : N) : byte :=
  match Byte.of_N (c mod 256) with
  | Some b => b
  | None => x00
  end.

Definition relative_index (len x : Z) : Z :=
  (if x <? 0 then Z.max (len + x) 0 else Z.min x len)%Z.

(** [u8.subarray(begin, end)]: both indices are clamped to the array. *)
Definition subarray (u8 : list byte) (begin end_ : Z) : list byte :=
  let len := Z.of_nat (length u8) in
  let b := relative_index len begin in
  let e := relative_index len end_ in
  firstn (Z.to_nat (Z.max (e - b) 0)) (skipn (Z.to_nat b) u8).
End Uint8Array.

Module DataView.
Local Open Scope Z_scope.

Definition byteLength (view : list byte) : Z := Z.of_nat (length view).

Definition byte_at (view : list byte) (i : Z) : Z :=
  Z.of_N (Byte.to_N (nth (Z.to_nat i) view x00)).

(** Little-endian unsigned values of two and four bytes. *)
Definition uint16_le (view : list byte) (i : Z) : Z :=
  byte_at view i + 256 * byte_at view (i + 1).

Definition uint32_le (view : list byte) (i : Z) : Z :=
  byte_at view i + 256 * byte_at view (i + 1)
  + 65536 * byte_at view (i + 2) + 16777216 * byte_at view (i + 3).

(** [view.getUint16(byteOffset, true)] *)
Definition getUint16 (view : list byte) (byteOffset : Z) : result Z :=
  if (byteOffset <? 0) || (byteOffset + 2 >? byteLength view)
  then Throw RangeError
  else Ok (uint16_le view byteOffset).

(** [view.getUint32(byteOffset, true)] *)
Definition getUint32 (view : list byte) (byteOffset : Z) : result Z :=
  if (byteOffset <? 0) || (byteOffset + 4 >? byteLength view)
  then Throw RangeError
  else Ok (uint32_le view byteOffset).
End DataView.

(** ** [new TextDecoder("utf-8").decode] *)

Module TextDecoder.
Local Open Scope N_scope.

Record state : Type := mkState {
  code_point : N;
  bytes_seen : N;
  bytes_needed : N;
  lower_boundary : N;
  upper_boundary : N
}.

Definition initial : state := mkState 0 0 0 0x80 0xBF.

Definition REPLACEMENT : N := 0xFFFD.

(** The handler on a byte when no continuation byte is expected: the code
    points emitted and the next state. *)
Definition lead (b : N) : list N * state :=
  if b <=? 0x7F then ([b], initial)
  else if (0xC2 <=? b) && (b <=? 0xDF)
    then ([], mkState (N.land b 0x1F) 0 1 0x80 0xBF)
  else if (0xE0 <=? b) && (b <=? 0xEF)
    then ([], mkState (N.land b 0xF) 0 2
                (if b =? 0xE0 then 0xA0 else 0x80)
                (if b =? 0xED then 0x9F else 0xBF))
  else if (0xF0 <=? b) && (b <=? 0xF4)
    then ([], mkState (N.land b 0x7) 0 3
                (if b =? 0xF0 then 0x90 else 0x80)
                (if b =? 0xF4 then 0x8F else 0xBF))
  else ([REPLACEMENT], initial).

(** The UTF-8 decoder of the Encoding standard with error mode
    "replacement".  A byte that is not the continuation expected is an
    error and is then handled again from the initial state. *)
Fixpoint run (st : state) (bs : list N) : list N :=
  match bs with
  | [] => if bytes_needed st =? 0 then [] else [REPLACEMENT]
  | b :: rest =>
      if bytes_needed st =? 0 then
        let (out, st') := lead b in out ++ run st' rest
      else if (b <? lower_boundary st) || (upper_boundary st <? b) then
        let (out, st') := lead b in REPLACEMENT :: out ++ run st' rest
      else
        let cp := N.lor (N.shiftl (code_point st) 6) (N.land b 0x3F) in
        let seen := bytes_seen st + 1 in
        if seen =? bytes_needed st then cp :: run initial rest
        else run (mkState cp seen (bytes_needed st) 0x80 0xBF) rest
  end.

(** A leading byte order mark is not part of the output. *)
Definition strip_bom (cps : list N) : list N :=
  match cps with
  | c :: rest => if c =? 0xFEFF then rest else cps
  | [] => []
  end.

(** A code point as UTF-16 code units. *)
Definition utf16 (cp : N) : jsstring :=
  if cp <? 0x10000 then [cp]
  else [0xD800 + (cp - 0x10000) / 1024; 0xDC00 + (cp - 0x10000) mod 1024].

Definition decode (bytes : list byte) : jsstring :=
  flat_map utf16 (strip_bom (run initial (map Byte.to_N bytes))).
End TextDecoder.

(** ** The converter: [convertTextToZipBlob] *)

Definition EmptyInputError : exn := Error "Resulting string is empty.".

Definition InvalidEncodingError : exn :=
  Error "Invalid Base64 content. Please ensure the file contains valid Base64 parts.".

(** The string handed to the decoder: lines split, reversed, joined with no
    separator, and every whitespace removed. *)
Definition base64String (textContent : jsstring) : jsstring :=
  let lines := split_lines textContent in
  let reversedLines := rev lines in
  let joined := concat reversedLines in
  remove_whitespace joined.

Section Reconstructor.
(** The decoding primitive of the platform. *)
Variable atob : jsstring -> result jsstring.

Definition convertTextToZipBlob_with (textContent : jsstring) : result Blob :=
  let base64String := base64String textContent in
  if is_falsy base64String then Throw EmptyInputError
  else
    try_catch
      (binaryString <- atob base64String ;;
       let bytes := map Uint8Array.to_uint8 binaryString in
       Ok (mkBlob bytes "application/zip"))
      (fun _ => Throw InvalidEncodingError).
End Reconstructor.

Definition convertTextToZipBlob : jsstring -> result Blob :=
  convertTextToZipBlob_with Base64.atob.

(** ** The scanner: [getZipFileList] *)

Section Scanner.
Import DataView.
Local Open Scope Z_scope.

Definition EOCD_SIGNATURE : Z := 0x06054b50.
Definition CDH_SIGNATURE : Z := 0x02014b50.

(** The values of a loop variable that starts at [i] and is decremented
    [n] times. *)
Fixpoint countdown (i : Z) (n : nat) : list Z :=
  match n with
  | O => []
  | S k => i :: countdown (i - 1) k
  end.

(** The offsets visited by
    [for (let i = len - 22; i >= len - maxScan; i--)]. *)
Definition eocd_candidates (len : Z) : list Z :=
  let maxScan := Z.min len (65535 + 22) in
  countdown (len - 22) (Z.to_nat ((len - 22) - (len - maxScan) + 1)).

(** The body of that loop over the offsets left to visit; [-1] is the
    initial value of [eocdOffset]. *)
Fixpoint find_eocd (view : list byte) (candidates : list Z) : result Z :=
  match candidates with
  | [] => Ok (-1)
  | i :: rest =>
      sig <- getUint32 view i ;;
      if sig =? EOCD_SIGNATURE then Ok i else find_eocd view rest
  end.

(** The central-directory loop; [remaining] is [entriesCount - i]. *)
Fixpoint walk (view u8 : list byte) (len : Z) (remaining : nat)
    (offset : Z) (files : list jsstring) : result (list jsstring) :=
  match remaining with
  | O => Ok files
  | S k =>
      if offset + 46 >? len then Ok files
      else
        sig <- getUint32 view offset ;;
        if negb (sig =? CDH_SIGNATURE) then Ok files
        else
          fileNameLen <- getUint16 view (offset + 28) ;;
          extraFieldLen <- getUint16 view (offset + 30) ;;
          fileCommentLen <- getUint16 view (offset + 32) ;;
          let nameBytes :=
            Uint8Array.subarray u8 (offset + 46) (offset + 46 + fileNameLen) in
          let fileName := TextDecoder.decode nameBytes in
          walk view u8 len k
            (offset + (46 + fileNameLen + extraFieldLen + fileCommentLen))
            (files ++ [fileName])
  end.

(** The [try] block of [getZipFileList]. *)
Definition getZipFileList_try (blob : Blob) : result (list jsstring) :=
  let buffer := arrayBuffer blob in
  let view := buffer in
  let u8 := buffer in
  let len := byteLength view in
  eocdOffset <- find_eocd view (eocd_candidates len) ;;
  if eocdOffset =? -1 then Ok []
  else
    entriesCount <- getUint16 view (eocdOffset + 10) ;;
    centralDirOffset <- getUint32 view (eocdOffset + 16) ;;
    walk view u8 len (Z.to_nat entriesCount) centralDirOffset [].

Definition getZipFileList (blob : Blob) : result (list jsstring) :=
  try_catch (getZipFileList_try blob) (fun _ => Ok []).
End Scanner.

(** ** Vocabulary of the statements *)

(** *** Texts made of lines *)

Inductive line_break : jsstring -> Prop :=
| break_lf : line_break [LF]
| break_crlf : line_break [CR; LF].

(** [joined_lines ls t]: the text [t] is the lines [ls], in this order,
    with a line break between two neighbours. *)
Inductive joined_lines : list jsstring -> jsstring -> Prop :=
| joined_last (l : jsstring) : joined_lines [l] l
| joined_more (l br : jsstring) (ls : list jsstring) (t : jsstring) :
    line_break br -> joined_lines ls t ->
    joined_lines (l :: ls) (l ++ br ++ t).

(** A code unit that is neither LF nor CR. *)
Definition no_break (c : code_unit) : Prop := c <> LF /\ c <> CR.

(** A code unit of the 64-character alphabet or the padding character. *)
Definition is_base64_symbol (c : code_unit) : Prop :=
  Base64.b64_index c <> None \/ c = Base64.PAD.

(** *** Central-directory headers *)

Section Directory.
Import DataView.
Local Open Scope Z_scope.

Variable view : list byte.

(** The window of the backward search. *)
Definition in_window (i : Z) : Prop :=
  let len := byteLength view in
  Z.max 0 (len - Z.min len (65535 + 22)) <= i <= len - 22.

Definition eocd_signature_at (i : Z) : Prop :=
  uint32_le view i = EOCD_SIGNATURE.

(** The match of the window closest to the end of the buffer. *)
Definition authoritative_eocd (e : Z) : Prop :=
  in_window e /\ eocd_signature_at e /\
  forall j, e < j <= byteLength view - 22 -> ~ eocd_signature_at j.

Definition name_length (off : Z) : Z := uint16_le view (off + 28).

(** 46 + name length + extra length + comment length. *)
Definition header_size (off : Z) : Z :=
  46 + uint16_le view (off + 28) + uint16_le view (off + 30)
  + uint16_le view (off + 32).

(** The two checks of the walk, at cursor [off]. *)
Definition header_accepted (off : Z) : bool :=
  (off + 46 <=? byteLength view) && (uint32_le view off =? CDH_SIGNATURE).

(** The name the walk appends for the header at [off]. *)
Definition header_name (off : Z) : jsstring :=
  TextDecoder.decode
    (Uint8Array.subarray view (off + 46) (off + 46 + name_length off)).

(** [accepted_run start hs stop]: the headers at the cursors [hs] pass
    both checks, the first is at [start], each next one lies
    [header_size] further, and [stop] is the cursor after the last. *)
Inductive accepted_run : Z -> list Z -> Z -> Prop :=
| run_nil (off : Z) : accepted_run off [] off
| run_cons (off : Z) (hs : list Z) (stop : Z) :
    header_accepted off = true ->
    accepted_run (off + header_size off) hs stop ->
    accepted_run off (off :: hs) stop.

(** [central_directory off names]: from [off] on the buffer holds one
    complete header per name, each with its name bytes inside the
    buffer. *)
Inductive central_directory : Z -> list (list byte) -> Prop :=
| cd_end (off : Z) : central_directory off []
| cd_header (off : Z) (name : list byte) (names : list (list byte)) :
    off + 46 + Z.of_nat (length name) <= byteLength view ->
    uint32_le view off = CDH_SIGNATURE ->
    name_length off = Z.of_nat (length name) ->
    firstn (length name) (skipn (Z.to_nat (off + 46)) view) = name ->
    central_directory (off + header_size off) names ->
    central_directory off (name :: names).

(** A well-formed archive: an authoritative EOCD whose entry count and
    directory offset describe a complete central directory. *)
Definition well_formed_archive (names : list (list byte)) : Prop :=
  exists e,
    authoritative_eocd e /\
    uint16_le view (e + 10) = Z.of_nat (length names) /\
    central_directory (uint32_le view (e + 16)) names.
End Directory.

(** *** Well-formed UTF-8 *)

(** A continuation byte. *)
Definition continuation (c : N) : Prop := (0x80 <= c <= 0xBF)%N.

(** The well-formed byte sequences of UTF-8 (Unicode standard, table 3-7),
    one constructor per row of the table. *)
Inductive well_formed_utf8 : list N -> Prop :=
| wf_end : well_formed_utf8 []
| wf_ascii (b : N) (rest : list N) :
    (b <= 0x7F)%N ->
    well_formed_utf8 rest -> well_formed_utf8 (b :: rest)
| wf_two (b c : N) (rest : list N) :
    (0xC2 <= b <= 0xDF)%N -> (0x80 <= c <= 0xBF)%N ->
    well_formed_utf8 rest -> well_formed_utf8 (b :: c :: rest)
| wf_three_E0 (c d : N) (rest : list N) :
    (0xA0 <= c <= 0xBF)%N -> (0x80 <= d <= 0xBF)%N ->
    well_formed_utf8 rest -> well_formed_utf8 (0xE0%N :: c :: d :: rest)
| wf_three_E1_EC (b c d : N) (rest : list N) :
    (0xE1 <= b <= 0xEC)%N -> (0x80 <= c <= 0xBF)%N -> (0x80 <= d <= 0xBF)%N ->
    well_formed_utf8 rest -> well_formed_utf8 (b :: c :: d :: rest)
| wf_three_ED (c d : N) (rest : list N) :
    (0x80 <= c <= 0x9F)%N -> (0x80 <= d <= 0xBF)%N ->
    well_formed_utf8 rest -> well_formed_utf8 (0xED%N :: c :: d :: rest)
| wf_three_EE_EF (b c d : N) (rest : list N) :
    (0xEE <= b <= 0xEF)%N -> (0x80 <= c <= 0xBF)%N -> (0x80 <= d <= 0xBF)%N ->
    well_formed_utf8 rest -> well_formed_utf8 (b :: c :: d :: rest)
| wf_four_F0 (c d e : N) (rest : list N) :
    (0x90 <= c <= 0xBF)%N -> (0x80 <= d <= 0xBF)%N -> (0x80 <= e <= 0xBF)%N ->
    well_formed_utf8 rest -> well_formed_utf8 (0xF0%N :: c :: d :: e :: rest)
| wf_four_F1_F3 (b c d e : N) (rest : list N) :
    (0xF1 <= b <= 0xF3)%N -> (0x80 <= c <= 0xBF)%N ->
    (0x80 <= d <= 0xBF)%N -> (0x80 <= e <= 0xBF)%N ->
    well_formed_utf8 rest -> well_formed_utf8 (b :: c :: d :: e :: rest)
| wf_four_F4 (c d e : N) (rest : list N) :
    (0x80 <= c <= 0x8F)%N -> (0x80 <= d <= 0xBF)%N -> (0x80 <= e <= 0xBF)%N ->
    well_formed_utf8 rest -> well_formed_utf8 (0xF4%N :: c :: d :: e :: rest).

(** *** Hand-built buffers *)

(** A central-directory header: signature, name length at 28, no extra
    field, no comment, then the name bytes. *)
Definition cdh (name_len : byte) (name : list byte) : list byte :=
  [x50; x4b; x01; x02] ++ repeat x00 24
    ++ [name_len; x00; x00; x00; x00; x00] ++ repeat x00 12 ++ name.

(** An EOCD record with no comment: entry count at 10, directory offset
    at 16. *)
Definition eocd (count offset : byte) : list byte :=
  [x50; x4b; x05; x06] ++ repeat x00 6 ++ [count; x00] ++ repeat x00 4
    ++ [offset; x00; x00; x00; x00; x00].

Definition zip (bytes : list byte) : Blob := mkBlob bytes "application/zip".

(** One header named "test.txt", then the EOCD that points at it. *)
Definition test_txt_archive : Blob :=
  zip (cdh x08 (list_byte_of_string "test.txt") ++ eocd x01 x00).

(** The same header, with an EOCD that declares five entries. *)
Definition overcounted_archive : Blob :=
  zip (cdh x08 (list_byte_of_string "test.txt") ++ eocd x05 x00).

(** A header named "a", the EOCD that points at it, and a second EOCD
    with no entry behind it. *)
Definition two_eocd_archive : Blob :=
  zip (cdh x01 (list_byte_of_string "a") ++ eocd x01 x00 ++ eocd x00 x00).

(** A header that declares a name of 200 bytes where only "test" and the
    EOCD are left in the buffer. *)
Definition overlong_name_archive : Blob :=
  zip (cdh xc8 (list_byte_of_string "test") ++ eocd x01 x00).

(** Two headers; the name of the first is no UTF-8. *)
Definition invalid_name_archive : Blob :=
  zip (cdh x02 [xff; x41] ++ cdh x01 (list_byte_of_string "b")
       ++ eocd x02 x00).

(** * The code around the two core functions *)

(** ** Further platform primitives *)

Module JSPrim.
Local Open Scope N_scope.

Definition DQUOTE : code_unit := 34.

(** [a === b] on strings. *)
Fixpoint str_eqb (a b : jsstring) : bool :=
  match a, b with
  | [], [] => true
  | x :: a', y :: b' => (x =? y) && str_eqb a' b'
  | _, _ => false
  end.

(** [s.startsWith(prefix)] *)
Fixpoint startsWith (s prefix : jsstring) : bool :=
  match prefix, s with
  | [], _ => true
  | p :: prefix', c :: s' => (c =? p) && startsWith s' prefix'
  | _ :: _, [] => false
  end.

(** [s.endsWith(suffix)] *)
Definition endsWith (s suffix : jsstring) : bool :=
  (length suffix <=? length s)%nat
  && str_eqb (skipn (length s - length suffix) s) suffix.

(** [s.replace(pattern, replacement)] for a string pattern and a
    replacement without "$": the first occurrence only. *)
Fixpoint replace (s pattern replacement : jsstring) {struct s} : jsstring :=
  if startsWith s pattern then replacement ++ skipn (length pattern) s
  else
    match s with
    | [] => []
    | c :: rest => c :: replace rest pattern replacement
    end.

(** The string of a non-negative integer, as in [`${n}`]. *)
Definition number_to_string (n : N) : jsstring :=
  lit (NilZero.string_of_uint (N.to_uint n)).

(** [s || fallback] on strings: the empty string is falsy. *)
Definition or_else (s fallback : string) : string :=
  match s with
  | EmptyString => fallback
  | String _ _ => s
  end.
End JSPrim.

(** [element.classList]: an ordered set of tokens. *)
Module DOMTokenList.
Definition t : Type := list string.

Definition contains (token : string) (c : t) : bool :=
  existsb (String.eqb token) c.

Definition add1 (c : t) (token : string) : t :=
  if contains token c then c else c ++ [token].

(** [classList.add(...tokens)] *)
Definition add (tokens : list string) (c : t) : t :=
  fold_left add1 tokens c.

(** [classList.remove(...tokens)] *)
Definition remove (tokens : list string) (c : t) : t :=
  filter (fun x => negb (existsb (String.eqb x) tokens)) c.
End DOMTokenList.

(** ** Reading the file: [readFileAsText] *)

(** What the [FileReader] reports after [readAsText]: a load event with
    [event.target?.result] (absent, or a string), or an error event. *)
Inductive reader_event : Type :=
| onload (result : option jsstring)
| onerror.

Record File : Type := mkFile { file_name : jsstring; file_read : reader_event }.

(** The promise of [readFileAsText], settled: resolved is [Ok], rejected
    is [Throw]. *)
Definition readFileAsText (file : File) : result jsstring :=
  match file_read file with
  | onload (Some r) =>
      if is_falsy r then Throw (Error "Failed to read file content")
      else Ok r
  | onload None => Throw (Error "Failed to read file content")
  | onerror => Throw (Error "File reading error")
  end.

(** [err.message]; the messages of the platform's own exceptions are taken
    from [platform_message]. *)
Definition message (platform_message : exn -> string) (err : exn) : string :=
  match err with
  | Error m => m
  | _ => platform_message err
  end.

(** What a handler asks the platform to do: a click on the hidden file
    input, or a call of [downloadBlob], whose body only drives the browser
    (an object URL and a click on a temporary link). *)
Inductive Effect : Type :=
| input_click
| downloadBlob (blob : Blob) (filename : jsstring).

(** ** The page script (script.js) *)

Module ScriptJs.
Import JSPrim.

(** [STATES] *)
Inductive Status : Type := IDLE | PROCESSING | SUCCESS | ERROR.

(** [state] *)
Record State : Type := mkState {
  status : Status;
  generatedBlob : option Blob;
  outputFileName : jsstring
}.

Inductive LiContent : Type :=
| innerHTML (markup : jsstring)
| textContent (text : jsstring).

Record Li : Type := mkLi { className : string; content : LiContent }.

(** The elements the logic functions touch. *)
Record Dom : Type := mkDom {
  dropZone : DOMTokenList.t;
  stateIdle : DOMTokenList.t;
  stateProcessing : DOMTokenList.t;
  stateSuccess : DOMTokenList.t;
  stateError : DOMTokenList.t;
  processingFileName : jsstring;
  successFileCount : jsstring;
  errorMsg : jsstring;
  fileListContainer : list Li;
  fileInput_value : jsstring
}.

(** The three views of the router. *)
Record Views : Type := mkViews {
  viewHome : DOMTokenList.t;
  viewTool : DOMTokenList.t;
  viewAimo : DOMTokenList.t
}.

Definition handleRoute (hash : jsstring) (v : Views) : Views :=
  let home := DOMTokenList.add ["hidden"%string] (viewHome v) in
  let tool := DOMTokenList.add ["hidden"%string] (viewTool v) in
  let aimo := DOMTokenList.add ["hidden"%string] (viewAimo v) in
  if str_eqb hash (lit "#/base64")
  then mkViews home (DOMTokenList.remove ["hidden"%string] tool) aimo
  else if str_eqb hash (lit "#/aimo")
  then mkViews home tool (DOMTokenList.remove ["hidden"%string] aimo)
  else mkViews (DOMTokenList.remove ["hidden"%string] home) tool aimo.

(** The markup of a list item before and after the file name. *)
Definition item_markup_before : jsstring :=
  [LF] ++ lit "                    <svg xmlns=" ++ [DQUOTE] ++
  lit "http://www.w3.org/2000/svg" ++ [DQUOTE] ++ lit " fill=" ++ [DQUOTE] ++
  lit "none" ++ [DQUOTE] ++ lit " viewBox=" ++ [DQUOTE] ++ lit "0 0 24 24" ++
  [DQUOTE] ++ lit " stroke-width=" ++ [DQUOTE] ++ lit "1.5" ++ [DQUOTE] ++
  lit " stroke=" ++ [DQUOTE] ++ lit "currentColor" ++ [DQUOTE] ++
  lit " class=" ++ [DQUOTE] ++
  lit "w-5 h-5 text-slate-400 mr-3 flex-shrink-0" ++ [DQUOTE] ++ lit ">" ++
  [LF] ++ lit "                        <path stroke-linecap=" ++ [DQUOTE] ++
  lit "round" ++ [DQUOTE] ++ lit " stroke-linejoin=" ++ [DQUOTE] ++
  lit "round" ++ [DQUOTE] ++ lit " d=" ++ [DQUOTE] ++
  lit "M19.5 14.25v-2.625a3.375 3.375 0 0 0-3.375-3.375h-1.5A1.125 1.125 0 0 1 13.5 7.125v-1.5a3.375 3.375 0 0 0-3.375-3.375H8.25m2.25 0H5.625c-.621 0-1.125.504-1.125 1.125v17.25c0 .621.504 1.125 1.125 1.125h12.75c.621 0 1.125-.504 1.125-1.125V11.25a9 9 0 0 0-9-9Z" ++
  [DQUOTE] ++ lit " />" ++ [LF] ++ lit "                    </svg>" ++
  [LF] ++ lit "                    <span class=" ++ [DQUOTE] ++
  lit "text-sm text-slate-700 truncate font-medium" ++ [DQUOTE] ++ lit ">".

Definition item_markup_after : jsstring :=
  lit "</span>" ++ [LF] ++ lit "                ".

Definition file_item (file : jsstring) : Li :=
  mkLi "px-4 py-3 flex items-center text-left hover:bg-slate-100 transition-colors"
    (innerHTML (item_markup_before ++ file ++ item_markup_after)).

Definition empty_item : Li :=
  mkLi "px-4 py-4 text-slate-400 text-sm italic"
    (textContent (lit "No files detected or unable to read directory.")).

(** [`Found ${n} file${n !== 1 ? 's' : ''} in the archive.`] *)
Definition found_text (n : nat) : jsstring :=
  lit "Found " ++ number_to_string (N.of_nat n) ++ lit " file"
    ++ (if negb (Nat.eqb n 1) then lit "s" else []) ++ lit " in the archive.".

Definition setStatus (newStatus : Status) (message : jsstring)
    (files : list jsstring) (s : State * Dom) : State * Dom :=
  let (st, d) := s in
  let st := mkState newStatus (generatedBlob st) (outputFileName st) in
  let idle := DOMTokenList.add ["hidden"%string] (stateIdle d) in
  let processing := DOMTokenList.add ["hidden"%string] (stateProcessing d) in
  let success := DOMTokenList.add ["hidden"%string] (stateSuccess d) in
  let error := DOMTokenList.add ["hidden"%string] (stateError d) in
  let zone :=
    DOMTokenList.remove
      ["border-red-200"; "border-green-200"; "cursor-pointer"]%string
      (dropZone d) in
  match newStatus with
  | IDLE =>
      (st, mkDom (DOMTokenList.add ["cursor-pointer"%string] zone)
             (DOMTokenList.remove ["hidden"%string] idle)
             processing success error
             (processingFileName d) (successFileCount d) (errorMsg d)
             (fileListContainer d) (fileInput_value d))
  | PROCESSING =>
      (st, mkDom zone idle
             (DOMTokenList.remove ["hidden"%string] processing)
             success error
             message (successFileCount d) (errorMsg d)
             (fileListContainer d) (fileInput_value d))
  | SUCCESS =>
      (st, mkDom (DOMTokenList.add ["border-green-200"%string] zone)
             idle processing
             (DOMTokenList.remove ["hidden"%string] success)
             error
             (processingFileName d) (found_text (length files)) (errorMsg d)
             (if (0 <? length files)%nat then map file_item files
              else [empty_item])
             (fileInput_value d))
  | ERROR =>
      (st, mkDom (DOMTokenList.add ["border-red-200"%string] zone)
             idle processing success
             (DOMTokenList.remove ["hidden"%string] error)
             (processingFileName d) (successFileCount d) message
             (fileListContainer d) (fileInput_value d))
  end.

Definition reset (s : State * Dom) : State * Dom :=
  let (st, d) := s in
  let st := mkState (status st) None [] in
  let d := mkDom (dropZone d) (stateIdle d) (stateProcessing d)
             (stateSuccess d) (stateError d) (processingFileName d)
             (successFileCount d) (errorMsg d) (fileListContainer d) [] in
  setStatus IDLE [] [] (st, d).

Section Handlers.
(** [String.prototype.toLowerCase] and the messages of platform
    exceptions. *)
Variable toLowerCase : jsstring -> jsstring.
Variable platform_message : exn -> string.

Definition displayFileName (file : File) : jsstring :=
  if negb (endsWith (toLowerCase (file_name file)) (lit ".txt"))
  then file_name file ++ lit ".txt"
  else file_name file.

(** [processFile(file)], run to completion with no other handler in
    between; [now] is the value of [Date.now()]. *)
Definition processFile (file : option File) (now : N) (s : State * Dom)
  : State * Dom :=
  match file with
  | None => s
  | Some file =>
      let s := setStatus PROCESSING (displayFileName file) [] s in
      match
        (textContent <- readFileAsText file ;;
         zipBlob <- convertTextToZipBlob textContent ;;
         files <- getZipFileList zipBlob ;;
         Ok (zipBlob, files))
      with
      | Ok (zipBlob, files) =>
          let st := mkState (status (fst s)) (Some zipBlob)
                      (number_to_string now ++ lit ".zip") in
          setStatus SUCCESS [] files (st, snd s)
      | Throw err =>
          setStatus ERROR
            (lit (or_else (message platform_message err)
                    "An unexpected error occurred."))
            [] s
      end
  end.

(** The listeners; [file] is [files[0]] of the event. *)
Definition dropZone_click (s : State * Dom) : list Effect :=
  match status (fst s) with
  | IDLE => [input_click]
  | _ => []
  end.

Definition drag_classes : list string :=
  ["border-brand-500"; "bg-brand-50"; "scale-[1.02]"]%string.

Definition with_dropZone (f : DOMTokenList.t -> DOMTokenList.t) (d : Dom)
  : Dom :=
  mkDom (f (dropZone d)) (stateIdle d) (stateProcessing d) (stateSuccess d)
    (stateError d) (processingFileName d) (successFileCount d) (errorMsg d)
    (fileListContainer d) (fileInput_value d).

Definition dropZone_dragover (s : State * Dom) : State * Dom :=
  match status (fst s) with
  | IDLE => (fst s, with_dropZone (DOMTokenList.add drag_classes) (snd s))
  | _ => s
  end.

Definition dropZone_dragleave (s : State * Dom) : State * Dom :=
  (fst s, with_dropZone (DOMTokenList.remove drag_classes) (snd s)).

Definition dropZone_drop (file : option File) (now : N) (s : State * Dom)
  : State * Dom :=
  let s := (fst s, with_dropZone (DOMTokenList.remove drag_classes) (snd s)) in
  match file with
  | Some _ => processFile file now s
  | None => s
  end.

Definition fileInput_change (file : option File) (now : N)
    (s : State * Dom) : State * Dom :=
  match file with
  | Some _ => processFile file now s
  | None => s
  end.

Definition downloadBtn_click (s : State * Dom) : list Effect :=
  match generatedBlob (fst s) with
  | Some blob =>
      if is_falsy (outputFileName (fst s)) then []
      else [downloadBlob blob (outputFileName (fst s))]
  | None => []
  end.
End Handlers.

Definition initial_state : State := mkState IDLE None [].

(** An element is shown when its class list has no "hidden". *)
Definition shown (c : DOMTokenList.t) : bool :=
  negb (DOMTokenList.contains "hidden" c).

(** The panel of a status. *)
Definition panel (p : Status) (d : Dom) : DOMTokenList.t :=
  match p with
  | IDLE => stateIdle d
  | PROCESSING => stateProcessing d
  | SUCCESS => stateSuccess d
  | ERROR => stateError d
  end.
End ScriptJs.

(** ** The later page script (src/unnamed/part_000): the router *)

Module SiteScript.
Import JSPrim.

Section Router.
(** The part of the page [renderAimoDashboard] writes to, and what it
    does there. *)
Variable Dashboard : Type.
Variable renderAimoDashboard : Dashboard -> Dashboard.

Definition handleRoute (hash : jsstring) (p : ScriptJs.Views * Dashboard)
  : ScriptJs.Views * Dashboard :=
  let (v, board) := p in
  let hash := replace hash (lit "#/") (lit "#") in
  let home := DOMTokenList.add ["hidden"%string] (ScriptJs.viewHome v) in
  let tool := DOMTokenList.add ["hidden"%string] (ScriptJs.viewTool v) in
  let aimo := DOMTokenList.add ["hidden"%string] (ScriptJs.viewAimo v) in
  if str_eqb hash (lit "#base64")
  then (ScriptJs.mkViews home (DOMTokenList.remove ["hidden"%string] tool)
          aimo, board)
  else if str_eqb hash (lit "#aimo")
  then (ScriptJs.mkViews home tool
          (DOMTokenList.remove ["hidden"%string] aimo),
        renderAimoDashboard board)
  else (ScriptJs.mkViews (DOMTokenList.remove ["hidden"%string] home) tool
          aimo, board).
End Router.
End SiteScript.

(** ** The React component (components/Converter.tsx) *)

Module Converter.
Import JSPrim.

Inductive ConversionStatus : Type := IDLE | PROCESSING | SUCCESS | ERROR.

(** The values of the [useState] hooks. *)
Record State : Type := mkState {
  status : ConversionStatus;
  fileName : jsstring;
  errorMsg : jsstring;
  dragActive : bool;
  previewFiles : list jsstring;
  generatedBlob : option Blob;
  outputFileName : jsstring
}.

Definition resetState (s : State) : State :=
  mkState IDLE [] [] (dragActive s) [] None [].

Section Handlers.
Variable toLowerCase : jsstring -> jsstring.
Variable platform_message : exn -> string.

Definition displayFileName (file : File) : jsstring :=
  if negb (endsWith (toLowerCase (file_name file)) (lit ".txt"))
  then file_name file ++ lit ".txt"
  else file_name file.

(** [processFile(file)], run to completion with no other handler in
    between; [now] is the value of [Date.now()]. *)
Definition processFile (file : option File) (now : N) (s : State) : State :=
  match file with
  | None => s
  | Some file =>
      let s := mkState PROCESSING (displayFileName file) [] (dragActive s)
                 [] None (outputFileName s) in
      match
        (textContent <- readFileAsText file ;;
         zipBlob <- convertTextToZipBlob textContent ;;
         let outputName := number_to_string now ++ lit ".zip" in
         files <- getZipFileList zipBlob ;;
         Ok (zipBlob, outputName, files))
      with
      | Ok (zipBlob, outputName, files) =>
          mkState SUCCESS (fileName s) (errorMsg s) (dragActive s)
            files (Some zipBlob) outputName
      | Throw err =>
          mkState ERROR (fileName s)
            (lit (or_else (message platform_message err)
                    "An unexpected error occurred during conversion."))
            (dragActive s) (previewFiles s) (generatedBlob s)
            (outputFileName s)
      end
  end.

Definition handleDownload (s : State) : list Effect :=
  match generatedBlob s with
  | Some blob =>
      if is_falsy (outputFileName s) then []
      else [downloadBlob blob (outputFileName s)]
  | None => []
  end.

Definition with_dragActive (b : bool) (s : State) : State :=
  mkState (status s) (fileName s) (errorMsg s) b (previewFiles s)
    (generatedBlob s) (outputFileName s).

(** [handleDrag(e)] by [e.type]. *)
Definition handleDrag (type : jsstring) (s : State) : State :=
  if str_eqb type (lit "dragenter") || str_eqb type (lit "dragover")
  then with_dragActive true s
  else if str_eqb type (lit "dragleave") then with_dragActive false s
  else s.

Definition handleDrop (file : option File) (now : N) (s : State) : State :=
  let s := with_dragActive false s in
  match file with
  | Some _ => processFile file now (resetState s)
  | None => s
  end.

Definition handleChange (file : option File) (now : N) (s : State) : State :=
  match file with
  | Some _ => processFile file now (resetState s)
  | None => s
  end.

Definition onButtonClick (s : State) : list Effect :=
  match status s with
  | SUCCESS | ERROR => []
  | _ => [input_click]
  end.

(** [onClick] of the container: the handler is attached in the idle state
    only. *)
Definition container_click (s : State) : list Effect :=
  match status s with
  | IDLE => onButtonClick s
  | _ => []
  end.
End Handlers.
End Converter.

(** ** The two segments of [processFile] *)

(** [processFile] is asynchronous: it writes to the state before its first
    [await] and again when the conversion has settled, and other handlers
    (a second drop, a reset) may run in between.  The two segments are
    given here one by one; [processFile] above is the second applied to
    the result of the first, that is, a run with nothing in between. *)

Module ScriptAsync.
Import JSPrim ScriptJs.

Section Segments.
Variable toLowerCase : jsstring -> jsstring.
Variable platform_message : exn -> string.

(** Up to the first [await]. *)
Definition processFile_start (file : File) (s : State * Dom) : State * Dom :=
  setStatus PROCESSING (displayFileName toLowerCase file) [] s.

(** After the last [await], or in the [catch] block. *)
Definition processFile_settle (file : File) (now : N) (s : State * Dom)
  : State * Dom :=
  match
    (textContent <- readFileAsText file ;;
     zipBlob <- convertTextToZipBlob textContent ;;
     files <- getZipFileList zipBlob ;;
     Ok (zipBlob, files))
  with
  | Ok (zipBlob, files) =>
      let st := mkState (status (fst s)) (Some zipBlob)
                  (number_to_string now ++ lit ".zip") in
      setStatus SUCCESS [] files (st, snd s)
  | Throw err =>
      setStatus ERROR
        (lit (or_else (message platform_message err)
                "An unexpected error occurred."))
        [] s
  end.

(** The drop listener up to the first [await] of [processFile]. *)
Definition dropZone_drop_start (file : File) (s : State * Dom)
  : State * Dom :=
  processFile_start file
    (fst s, with_dropZone (DOMTokenList.remove drag_classes) (snd s)).
End Segments.
End ScriptAsync.

Module ConverterAsync.
Import JSPrim Converter.

Section Segments.
Variable toLowerCase : jsstring -> jsstring.
Variable platform_message : exn -> string.

(** Up to the first [await]. *)
Definition processFile_start (file : File) (s : State) : State :=
  mkState PROCESSING (displayFileName toLowerCase file) [] (dragActive s)
    [] None (outputFileName s).

(** After the last [await], or in the [catch] block. *)
Definition processFile_settle (file : File) (now : N) (s : State) : State :=
  match
    (textContent <- readFileAsText file ;;
     zipBlob <- convertTextToZipBlob textContent ;;
     let outputName := number_to_string now ++ lit ".zip" in
     files <- getZipFileList zipBlob ;;
     Ok (zipBlob, outputName, files))
  with
  | Ok (zipBlob, outputName, files) =>
      mkState SUCCESS (fileName s) (errorMsg s) (dragActive s)
        files (Some zipBlob) outputName
  | Throw err =>
      mkState ERROR (fileName s)
        (lit (or_else (message platform_message err)
                "An unexpected error occurred during conversion."))
        (dragActive s) (previewFiles s) (generatedBlob s)
        (outputFileName s)
  end.

(** [handleDrop] of a file up to the first [await] of [processFile]. *)
Definition handleDrop_start (file : File) (s : State) : State :=
  processFile_start file (resetState (with_dragActive false s)).
End Segments.
End ConverterAsync.

(** A file whose conversion succeeds: it is read to a text whose stripped
    string is not empty and is accepted by the decoder. *)
Definition convertible (file : File) : Prop :=
  exists text,
    file_read file = onload (Some text) /\
    base64String text <> [] /\
    Base64.forgiving_base64_decode (base64String text) <> None.

(** ** Vocabulary of the statements about the page *)

(** The status of the component as a status of the page script. *)
Definition script_status (c : Converter.ConversionStatus) : ScriptJs.Status :=
  match c with
  | Converter.IDLE => ScriptJs.IDLE
  | Converter.PROCESSING => ScriptJs.PROCESSING
  | Converter.SUCCESS => ScriptJs.SUCCESS
  | Converter.ERROR => ScriptJs.ERROR
  end.

(** The page shows what [state.status] says: the panel of the status and no
    other, the pointer cursor in the idle state only, the green border on
    success only and the red border on error only. *)
Definition ui_consistent (s : ScriptJs.State * ScriptJs.Dom) : Prop :=
  let status := ScriptJs.status (fst s) in
  let zone := ScriptJs.dropZone (snd s) in
  (forall p, ScriptJs.shown (ScriptJs.panel p (snd s)) = true <-> p = status)
  /\ (DOMTokenList.contains "cursor-pointer" zone = true
      <-> status = ScriptJs.IDLE)
  /\ (DOMTokenList.contains "border-green-200" zone = true
      <-> status = ScriptJs.SUCCESS)
  /\ (DOMTokenList.contains "border-red-200" zone = true
      <-> status = ScriptJs.ERROR).

(** The list items of the success panel for a list of names. *)
Definition rendered_files (files : list jsstring) : list ScriptJs.Li :=
  match files with
  | [] => [ScriptJs.empty_item]
  | _ :: _ => map ScriptJs.file_item files
  end.

(** The views shown by the router. *)
Definition shown_views (v : ScriptJs.Views) : bool * bool * bool :=
  (ScriptJs.shown (ScriptJs.viewHome v),
   ScriptJs.shown (ScriptJs.viewTool v),
   ScriptJs.shown (ScriptJs.viewAimo v)).

(** A page in which every panel is hidden, and sample files. *)
Definition blank_dom : ScriptJs.Dom :=
  ScriptJs.mkDom [] ["hidden"%string] ["hidden"%string] ["hidden"%string]
    ["hidden"%string] [] [] [] [] [].

Definition text_file (text : jsstring) : File :=
  mkFile (lit "parts.txt") (onload (Some text)).

(** A lower-casing of the ASCII letters, to run the handlers with. *)
Definition ascii_lower (s : jsstring) : jsstring :=
  map (fun c => if ((65 <=? c) && (c <=? 90))%N then (c + 32)%N else c) s.

(** * Proofs *)

(** ** Tactics *)

(** Boolean tests of the embedding as propositions. *)
Ltac boolprop :=
  repeat match goal with
  | H : _ && _ = true |- _ => apply andb_true_iff in H; destruct H
  | H : _ && _ = false |- _ => apply andb_false_iff in H; destruct H
  | H : _ || _ = true |- _ => apply orb_true_iff in H; destruct H
  | H : _ || _ = false |- _ => apply orb_false_iff in H; destruct H
  | H : negb _ = true |- _ => apply negb_true_iff in H
  | H : negb _ = false |- _ => apply negb_false_iff in H
  | H : (_ <=? _)%N = true |- _ => apply N.leb_le in H
  | H : (_ <=? _)%N = false |- _ => apply N.leb_gt in H
  | H : (_ <? _)%N = true |- _ => apply N.ltb_lt in H
  | H : (_ <? _)%N = false |- _ => apply N.ltb_ge in H
  | H : (_ =? _)%N = true |- _ => apply N.eqb_eq in H
  | H : (_ =? _)%N = false |- _ => apply N.eqb_neq in H
  | H : (_ <=? _)%Z = true |- _ => apply Z.leb_le in H
  | H : (_ <=? _)%Z = false |- _ => apply Z.leb_gt in H
  | H : (_ <? _)%Z = true |- _ => apply Z.ltb_lt in H
  | H : (_ <? _)%Z = false |- _ => apply Z.ltb_ge in H
  | H : (_ >? _)%Z = true |- _ => rewrite Z.gtb_ltb in H
  | H : (_ >? _)%Z = false |- _ => rewrite Z.gtb_ltb in H
  | H : (_ =? _)%Z = true |- _ => apply Z.eqb_eq in H
  | H : (_ =? _)%Z = false |- _ => apply Z.eqb_neq in H
  end.

(** Case analysis on the tests of the goal, outermost first. *)
Ltac split_if :=
  match goal with
  | |- context [if ?b then _ else _] =>
      let E := fresh "E" in destruct b eqn:E
  end.

(** Linear arithmetic with division and remainder by constants. *)
Ltac euclid := zify; Z.to_euclidean_division_equations; lia.

(** Evaluates the length of a concrete buffer in [H]. *)
Ltac buffer_length H :=
  match type of H with
  | context [DataView.byteLength ?v] =>
      let n := eval vm_compute in (DataView.byteLength v) in
      change (DataView.byteLength v) with n in H
  end.

(** An EOCD in the last 22 bytes of a concrete buffer is authoritative. *)
Ltac eocd_at_end :=
  split; [vm_compute; split; discriminate|];
  split; [reflexivity|];
  let j := fresh "j" in let Hj := fresh "Hj" in
  intros j Hj; exfalso; buffer_length Hj; lia.

(** ** Lines *)

Section Lines.
Local Open Scope N_scope.

Lemma split_lines_cons (c : code_unit) (s : jsstring) :
  no_break c -> split_lines (c :: s) = push_front c (split_lines s).
Proof.
  intros [Hlf Hcr]. simpl.
  apply N.eqb_neq in Hlf, Hcr. now rewrite Hlf, Hcr.
Qed.

Lemma split_lines_single (l : jsstring) :
  Forall no_break l -> split_lines l = [l].
Proof.
  induction 1 as [|c l Hc _ IH]; [reflexivity|].
  now rewrite split_lines_cons, IH.
Qed.

Lemma split_lines_break (l br t : jsstring) :
  Forall no_break l -> line_break br ->
  split_lines (l ++ br ++ t) = l :: split_lines t.
Proof.
  intros Hl Hbr. induction Hl as [|c l Hc _ IH].
  - destruct Hbr; reflexivity.
  - rewrite <- app_comm_cons, split_lines_cons, IH by assumption.
    reflexivity.
Qed.

Lemma split_lines_joined (ls : list jsstring) (t : jsstring) :
  joined_lines ls t -> Forall (Forall no_break) ls -> split_lines t = ls.
Proof.
  induction 1 as [l|l br ls t Hbr _ IH]; intros Hls.
  - apply split_lines_single. now inversion Hls.
  - inversion Hls; subst.
    rewrite split_lines_break by assumption. f_equal. now apply IH.
Qed.

Lemma remove_whitespace_id (s : jsstring) :
  Forall (fun c => is_whitespace c = false) s -> remove_whitespace s = s.
Proof.
  induction 1 as [|c s Hc _ IH]; [reflexivity|].
  unfold remove_whitespace in *. simpl. now rewrite Hc, IH.
Qed.

Lemma remove_whitespace_clean (s : jsstring) :
  Forall (fun c => is_whitespace c = false) (remove_whitespace s).
Proof.
  apply Forall_forall. intros c Hc.
  apply filter_In in Hc. destruct Hc as [_ Hc].
  now apply negb_true_iff in Hc.
Qed.

Lemma Forall_concat_pieces (P : code_unit -> Prop) (ls : list jsstring) :
  Forall P (concat ls) -> Forall (Forall P) ls.
Proof.
  induction ls as [|l ls IH]; simpl; intros H; [constructor|].
  apply Forall_app in H. destruct H. constructor; auto.
Qed.
End Lines.

(** ** Base64 *)

Section Base64Facts.
Import Base64.
Local Open Scope N_scope.

Lemma list_ind3 (A : Type) (P : list A -> Prop) :
  P [] -> (forall x, P [x]) -> (forall x y, P [x; y]) ->
  (forall x y z rest, P rest -> P (x :: y :: z :: rest)) ->
  forall l, P l.
Proof.
  intros H0 H1 H2 H3.
  fix IH 1. intros [|x [|y [|z rest]]];
    [apply H0 | apply H1 | apply H2 | apply H3; apply IH].
Qed.

Lemma filter_id (A : Type) (f : A -> bool) (l : list A) :
  Forall (fun x => f x = true) l -> filter f l = l.
Proof.
  induction 1 as [|x l Hx _ IH]; simpl; [reflexivity|].
  now rewrite Hx, IH.
Qed.

Lemma b64_index_char (n : N) : n < 64 -> b64_index (b64_char n) = Some n.
Proof.
  intros Hn. unfold b64_char.
  destruct (n <? 26) eqn:E1;
    [|destruct (n <? 52) eqn:E2;
      [|destruct (n <? 62) eqn:E3; [|destruct (n =? 62) eqn:E4]]];
    boolprop; unfold b64_index;
    repeat (split_if; boolprop; try lia); try (f_equal; lia).
Qed.

Lemma b64_index_range (c : code_unit) (n : N) :
  b64_index c = Some n -> 43 <= c <= 122 /\ c <> PAD /\ n < 64.
Proof.
  unfold b64_index, PAD.
  repeat (split_if; boolprop); intros Hn; inversion Hn; subst; lia.
Qed.

Lemma whitespace_range (c : code_unit) :
  is_whitespace c = true -> c <= 32 \/ 160 <= c.
Proof.
  unfold is_whitespace. intros H.
  repeat (apply orb_true_iff in H; destruct H as [H|H]); boolprop; lia.
Qed.

Lemma ascii_whitespace_range (c : code_unit) :
  is_ascii_whitespace c = true -> c <= 32.
Proof.
  unfold is_ascii_whitespace. intros H.
  repeat (apply orb_true_iff in H; destruct H as [H|H]); boolprop; lia.
Qed.

Lemma ascii_whitespace_is_whitespace (c : code_unit) :
  is_ascii_whitespace c = true -> is_whitespace c = true.
Proof.
  unfold is_ascii_whitespace, is_whitespace. intros H.
  repeat (apply orb_true_iff in H; destruct H as [H|H]);
    boolprop; subst; reflexivity.
Qed.

(** A symbol of an encoding is no whitespace and no line break. *)
Lemma symbol_plain (c : code_unit) :
  is_base64_symbol c ->
  is_whitespace c = false /\ is_ascii_whitespace c = false /\ no_break c.
Proof.
  intros Hc.
  assert (Hr : 43 <= c <= 122).
  { destruct Hc as [Hc|Hc].
    - destruct (b64_index c) as [n|] eqn:E; [|congruence].
      apply b64_index_range in E. lia.
    - subst. unfold PAD. lia. }
  repeat split.
  - destruct (is_whitespace c) eqn:E; [|reflexivity].
    apply whitespace_range in E. lia.
  - destruct (is_ascii_whitespace c) eqn:E; [|reflexivity].
    apply ascii_whitespace_range in E. lia.
  - unfold LF. lia.
  - unfold CR. lia.
Qed.

Lemma sextets_In (data : jsstring) (ns : list N) (c : code_unit) :
  sextets data = Some ns -> In c data -> exists n, b64_index c = Some n.
Proof.
  revert ns. induction data as [|d data IH]; simpl; intros ns H Hin; [easy|].
  destruct (b64_index d) as [n|] eqn:Ed; [|discriminate].
  destruct (sextets data) as [ns'|] eqn:Es; [|discriminate].
  destruct Hin as [->|Hin]; eauto.
Qed.

Lemma sextets_bad (data : jsstring) (c : code_unit) :
  In c data -> b64_index c = None -> sextets data = None.
Proof.
  intros Hin Hc. destruct (sextets data) as [ns|] eqn:E; [|reflexivity].
  destruct (sextets_In _ _ _ E Hin) as [n Hn]. congruence.
Qed.

Lemma sextets_app (d1 d2 : jsstring) (n1 n2 : list N) :
  sextets d1 = Some n1 -> sextets d2 = Some n2 ->
  sextets (d1 ++ d2) = Some (n1 ++ n2).
Proof.
  revert n1. induction d1 as [|c d1 IH]; simpl; intros n1 H1 H2.
  - inversion H1. assumption.
  - destruct (b64_index c); [|discriminate].
    destruct (sextets d1) as [m|]; [|discriminate].
    inversion H1. now rewrite (IH m eq_refl H2).
Qed.

Lemma drop_pad_snoc (d : jsstring) : drop_pad (d ++ [PAD]) = Some d.
Proof.
  unfold drop_pad. rewrite rev_app_distr. simpl. now rewrite rev_involutive.
Qed.

Lemma drop_pad_inv (data d : jsstring) :
  drop_pad data = Some d -> data = d ++ [PAD].
Proof.
  unfold drop_pad. destruct (rev data) as [|c r] eqn:E; [discriminate|].
  destruct (c =? PAD) eqn:Ec; [|discriminate]. boolprop. subst c.
  intros H. inversion H.
  rewrite <- (rev_involutive data), E. reflexivity.
Qed.

Lemma drop_pad_sextets (data : jsstring) (ns : list N) :
  sextets data = Some ns -> drop_pad data = None.
Proof.
  intros Hs. destruct (drop_pad data) as [d|] eqn:E; [|reflexivity].
  apply drop_pad_inv in E.
  assert (Hin : In PAD data) by (subst; apply in_or_app; right; now left).
  destruct (sextets_In _ _ _ Hs Hin) as [n Hn]. discriminate.
Qed.
End Base64Facts.

(** ** Decoding an encoding *)

Section RoundTrip.
Import Base64.
Local Open Scope N_scope.

Lemma decode_loop_group (s1 s2 s3 s4 : N) (ns : list N) :
  decode_loop 0 0 (s1 :: s2 :: s3 :: s4 :: ns) =
  let buffer := (((0 * 64 + s1) * 64 + s2) * 64 + s3) * 64 + s4 in
  [buffer / 65536; (buffer / 256) mod 256; buffer mod 256]
    ++ decode_loop 0 0 ns.
Proof. reflexivity. Qed.

Lemma group_bytes (x y z : N) :
  x < 256 -> y < 256 -> z < 256 ->
  let buffer :=
    (((0 * 64 + x / 4) * 64 + (x mod 4 * 16 + y / 16)) * 64
     + (y mod 16 * 4 + z / 64)) * 64 + z mod 64 in
  buffer / 65536 = x /\ (buffer / 256) mod 256 = y /\ buffer mod 256 = z.
Proof.
  intros Hx Hy Hz buffer.
  assert (Hb : buffer = x * 65536 + y * 256 + z) by (subst buffer; euclid).
  rewrite Hb. clear Hb buffer. repeat split; euclid.
Qed.

Lemma byte_bound (b : byte) : Byte.to_N b < 256.
Proof. pose proof (Byte.to_N_bounded b). lia. Qed.

Lemma to_uint8_to_N (b : byte) : Uint8Array.to_uint8 (Byte.to_N b) = b.
Proof.
  unfold Uint8Array.to_uint8.
  rewrite N.mod_small by apply byte_bound.
  now rewrite Byte.of_to_N.
Qed.

Lemma to_uint8_bytes (bs : list byte) :
  map Uint8Array.to_uint8 (map Byte.to_N bs) = bs.
Proof.
  induction bs as [|b bs IH]; simpl; [reflexivity|].
  now rewrite to_uint8_to_N, IH.
Qed.

(** An encoding is a run of alphabet characters that decodes to the bytes,
    followed by at most two padding characters that fill the last group. *)
Lemma base64_encode_shape (bs : list byte) :
  exists chars pad ns,
    base64_encode bs = chars ++ pad /\
    (pad = [] \/ pad = [PAD] \/ pad = [PAD; PAD]) /\
    sextets chars = Some ns /\
    decode_loop 0 0 ns = map Byte.to_N bs /\
    N.of_nat (length (chars ++ pad)) mod 4 = 0 /\
    N.of_nat (length chars) mod 4 <> 1.
Proof.
  induction bs as [|x|x y|x y z rest IH] using list_ind3.
  - exists [], [], []. repeat split; auto. vm_compute. discriminate.
  - pose proof (byte_bound x) as Hx.
    exists [b64_char (Byte.to_N x / 4); b64_char (Byte.to_N x mod 4 * 16)],
           [PAD; PAD],
           [Byte.to_N x / 4; Byte.to_N x mod 4 * 16].
    repeat split; auto.
    + simpl. rewrite !b64_index_char by euclid. reflexivity.
    + simpl. f_equal. euclid.
    + vm_compute. discriminate.
  - pose proof (byte_bound x) as Hx. pose proof (byte_bound y) as Hy.
    exists [b64_char (Byte.to_N x / 4);
            b64_char (Byte.to_N x mod 4 * 16 + Byte.to_N y / 16);
            b64_char (Byte.to_N y mod 16 * 4)],
           [PAD],
           [Byte.to_N x / 4;
            Byte.to_N x mod 4 * 16 + Byte.to_N y / 16;
            Byte.to_N y mod 16 * 4].
    repeat split; auto.
    + simpl. rewrite !b64_index_char by euclid. reflexivity.
    + simpl. f_equal; [euclid|f_equal; euclid].
    + vm_compute. discriminate.
  - destruct IH as (chars & pad & ns & He & Hp & Hs & Hd & Hl & Hc).
    pose proof (byte_bound x) as Hx. pose proof (byte_bound y) as Hy.
    pose proof (byte_bound z) as Hz.
    exists ([b64_char (Byte.to_N x / 4);
             b64_char (Byte.to_N x mod 4 * 16 + Byte.to_N y / 16);
             b64_char (Byte.to_N y mod 16 * 4 + Byte.to_N z / 64);
             b64_char (Byte.to_N z mod 64)] ++ chars),
           pad,
           ([Byte.to_N x / 4;
             Byte.to_N x mod 4 * 16 + Byte.to_N y / 16;
             Byte.to_N y mod 16 * 4 + Byte.to_N z / 64;
             Byte.to_N z mod 64] ++ ns).
    split; [|split; [|split; [|split; [|split]]]].
    + change (base64_encode (x :: y :: z :: rest))
        with ([b64_char (Byte.to_N x / 4);
               b64_char (Byte.to_N x mod 4 * 16 + Byte.to_N y / 16);
               b64_char (Byte.to_N y mod 16 * 4 + Byte.to_N z / 64);
               b64_char (Byte.to_N z mod 64)] ++ base64_encode rest).
      rewrite He. now rewrite app_assoc.
    + assumption.
    + apply sextets_app; [|assumption].
      simpl. rewrite !b64_index_char by euclid. reflexivity.
    + change (decode_loop 0 0 ?l) with (decode_loop 0 0 l).
      simpl app. rewrite decode_loop_group. cbv zeta.
      destruct (group_bytes _ _ _ Hx Hy Hz) as (H1 & H2 & H3).
      cbv zeta in H1, H2, H3. rewrite H1, H2, H3, Hd. reflexivity.
    + rewrite <- app_assoc. simpl length. simpl length in Hl.
      rewrite !Nat2N.inj_succ. euclid.
    + simpl length. rewrite !Nat2N.inj_succ. euclid.
Qed.

Lemma strip_padding_encoded (chars pad : jsstring) (ns : list N) :
  sextets chars = Some ns ->
  pad = [] \/ pad = [PAD] \/ pad = [PAD; PAD] ->
  N.of_nat (length (chars ++ pad)) mod 4 = 0 ->
  strip_padding (chars ++ pad) = chars.
Proof.
  intros Hs Hp Hl. unfold strip_padding.
  rewrite Hl. simpl.
  pose proof (drop_pad_sextets _ _ Hs) as Hnone.
  destruct Hp as [->|[->| ->]].
  - now rewrite app_nil_r, Hnone.
  - now rewrite drop_pad_snoc, Hnone.
  - change (chars ++ [PAD; PAD]) with (chars ++ [PAD] ++ [PAD]).
    rewrite app_assoc, drop_pad_snoc, drop_pad_snoc. reflexivity.
Qed.

Lemma base64_encode_symbols (bs : list byte) :
  Forall is_base64_symbol (base64_encode bs).
Proof.
  destruct (base64_encode_shape bs)
    as (chars & pad & ns & He & Hp & Hs & _).
  rewrite He. apply Forall_app. split.
  - apply Forall_forall. intros c Hc. left.
    destruct (sextets_In _ _ _ Hs Hc) as [n Hn]. congruence.
  - apply Forall_forall. intros c Hc. right.
    destruct Hp as [->|[->| ->]]; simpl in Hc; intuition.
Qed.

Lemma base64_encode_nonempty (bs : list byte) :
  bs <> [] -> base64_encode bs <> [].
Proof.
  destruct bs as [|x [|y [|z rest]]]; simpl; intros H; congruence.
Qed.

Lemma forgiving_decode_encode (bs : list byte) :
  forgiving_base64_decode (base64_encode bs) = Some (map Byte.to_N bs).
Proof.
  unfold forgiving_base64_decode.
  rewrite filter_id.
  2:{ eapply Forall_impl; [|apply base64_encode_symbols].
      intros c Hc. apply symbol_plain in Hc.
      destruct Hc as (_ & Hc & _). now rewrite Hc. }
  destruct (base64_encode_shape bs)
    as (chars & pad & ns & He & Hp & Hs & Hd & Hl & Hc).
  rewrite He, (strip_padding_encoded _ _ _ Hs Hp Hl).
  apply N.eqb_neq in Hc. rewrite Hc, Hs, Hd. reflexivity.
Qed.

Lemma atob_encode (bs : list byte) :
  atob (base64_encode bs) = Ok (map Byte.to_N bs).
Proof. unfold atob. now rewrite forgiving_decode_encode. Qed.
End RoundTrip.

(** ** The reconstructor *)

Section ReconstructorFacts.
Import Base64.
Local Open Scope N_scope.

Lemma base64String_clean (T : jsstring) :
  Forall (fun c => is_whitespace c = false) (base64String T).
Proof. apply remove_whitespace_clean. Qed.

Lemma ascii_filter_base64String (T : jsstring) :
  filter (fun c => negb (is_ascii_whitespace c)) (base64String T)
  = base64String T.
Proof.
  apply filter_id. eapply Forall_impl; [|apply base64String_clean].
  intros c Hc. simpl in Hc.
  destruct (is_ascii_whitespace c) eqn:E; [|reflexivity].
  apply ascii_whitespace_is_whitespace in E. congruence.
Qed.

(** What the converter returns, by the emptiness test and the decoder. *)
Lemma convert_empty (atob : jsstring -> result jsstring) (T : jsstring) :
  base64String T = [] ->
  convertTextToZipBlob_with atob T = Throw EmptyInputError.
Proof. unfold convertTextToZipBlob_with. now intros ->. Qed.

Lemma convert_invalid (T : jsstring) :
  base64String T <> [] ->
  forgiving_base64_decode (base64String T) = None ->
  convertTextToZipBlob T = Throw InvalidEncodingError.
Proof.
  unfold convertTextToZipBlob, convertTextToZipBlob_with, atob.
  intros Hne ->. destruct (base64String T); [congruence|reflexivity].
Qed.

Lemma convert_decoded (T s : jsstring) :
  base64String T <> [] ->
  forgiving_base64_decode (base64String T) = Some s ->
  convertTextToZipBlob T
  = Ok (mkBlob (map Uint8Array.to_uint8 s) "application/zip").
Proof.
  unfold convertTextToZipBlob, convertTextToZipBlob_with, atob.
  intros Hne ->. destruct (base64String T); [congruence|reflexivity].
Qed.

Lemma strip_padding_keeps (data : jsstring) (c : code_unit) :
  In c data -> c <> PAD -> In c (strip_padding data).
Proof.
  intros Hin Hc. unfold strip_padding.
  destruct (N.of_nat (length data) mod 4 =? 0); [|assumption].
  destruct (drop_pad data) as [d1|] eqn:E1; [|assumption].
  apply drop_pad_inv in E1. subst data.
  apply in_app_or in Hin. destruct Hin as [Hin|[Hin|[]]]; [|congruence].
  destruct (drop_pad d1) as [d2|] eqn:E2; [|assumption].
  apply drop_pad_inv in E2. subst d1.
  apply in_app_or in Hin. destruct Hin as [Hin|[Hin|[]]]; [|congruence].
  assumption.
Qed.

Lemma decode_bad_symbol (T : jsstring) (c : code_unit) :
  In c (base64String T) -> ~ is_base64_symbol c ->
  forgiving_base64_decode (base64String T) = None.
Proof.
  intros Hin Hc. unfold forgiving_base64_decode.
  rewrite ascii_filter_base64String.
  assert (Hidx : b64_index c = None).
  { destruct (b64_index c) eqn:E; [|reflexivity].
    exfalso. apply Hc. left. congruence. }
  assert (Hpad : c <> PAD) by (intros ->; apply Hc; now right).
  rewrite (sextets_bad _ _ (strip_padding_keeps _ _ Hin Hpad) Hidx).
  now destruct (_ =? 1).
Qed.

Lemma decode_bad_padding (T : jsstring) :
  In PAD (strip_padding (base64String T)) ->
  forgiving_base64_decode (base64String T) = None.
Proof.
  intros Hin. unfold forgiving_base64_decode.
  rewrite ascii_filter_base64String.
  rewrite (sextets_bad _ _ Hin eq_refl).
  now destruct (_ =? 1).
Qed.

Lemma decode_bad_length (T : jsstring) :
  N.of_nat (length (base64String T)) mod 4 = 1 ->
  forgiving_base64_decode (base64String T) = None.
Proof.
  intros Hl. unfold forgiving_base64_decode.
  rewrite ascii_filter_base64String.
  unfold strip_padding. rewrite Hl. simpl. now rewrite Hl.
Qed.

Lemma base64String_joined (B : list byte) (pieces : list jsstring)
    (T : jsstring) :
  concat pieces = base64_encode B ->
  joined_lines (rev pieces) T ->
  base64String T = base64_encode B.
Proof.
  intros Hcat Hjoin.
  pose proof (base64_encode_symbols B) as Hsym. rewrite <- Hcat in Hsym.
  unfold base64String.
  rewrite (split_lines_joined _ _ Hjoin).
  - rewrite rev_involutive, <- Hcat. apply remove_whitespace_id.
    eapply Forall_impl; [|exact Hsym].
    intros c Hc. now apply symbol_plain in Hc.
  - apply Forall_rev, Forall_concat_pieces.
    eapply Forall_impl; [|exact Hsym].
    intros c Hc. now apply symbol_plain in Hc.
Qed.
End ReconstructorFacts.

(** C1, as it holds: for every non-empty byte sequence [B], when the
    RFC 4648 encoding of [B] is cut into one or more pieces and the pieces
    are joined in reversed order with line breaks (LF or CR LF) into the
    text [T], the converter returns a blob of exactly the bytes [B]. *)
Theorem C1_round_trip (B : list byte) (pieces : list jsstring)
    (T : jsstring) :
  B <> [] ->
  concat pieces = Base64.base64_encode B ->
  joined_lines (rev pieces) T ->
  convertTextToZipBlob T = Ok (mkBlob B "application/zip").
Proof.
  intros HB Hcat Hjoin.
  pose proof (base64String_joined _ _ _ Hcat Hjoin) as Hs.
  rewrite (convert_decoded T (map Byte.to_N B)).
  - now rewrite to_uint8_bytes.
  - rewrite Hs. now apply base64_encode_nonempty.
  - rewrite Hs. apply forgiving_decode_encode.
Qed.

(** The encoding "RkdIQUJD" of "FGHABC", cut in two and stored as the
    lines "QUJD" and "RkdI". *)
Lemma C1_round_trip_witness :
  convertTextToZipBlob (lit "QUJD" ++ [LF] ++ lit "RkdI")
  = Ok (mkBlob (list_byte_of_string "FGHABC") "application/zip").
Proof.
  apply (C1_round_trip (list_byte_of_string "FGHABC")
           [lit "RkdI"; lit "QUJD"]).
  - discriminate.
  - reflexivity.
  - apply (joined_more (lit "QUJD") [LF] [lit "RkdI"] (lit "RkdI")).
    + constructor.
    + constructor.
Defined.

(** C1 as stated fails on the empty byte sequence: its encoding is the
    empty string, on which the converter raises the empty-input error. *)
Lemma C1_counterexample_empty :
  concat [[]] = Base64.base64_encode [] /\
  joined_lines (rev [[]]) [] /\
  convertTextToZipBlob [] = Throw EmptyInputError /\
  convertTextToZipBlob [] <> Ok (mkBlob [] "application/zip").
Proof.
  repeat split.
  - constructor.
  - discriminate.
Qed.

(** C6, as it holds: when the stripped string contains a code unit that
    is neither in the base64 alphabet nor the padding character, or still
    contains a padding character after the one or two allowed at the end
    of a string of length a multiple of four are removed, or has a length
    that leaves remainder 1 modulo 4, the platform decoder rejects it and
    the converter fails with the invalid-encoding error. *)
Theorem C6_invalid_encoding (T : jsstring) :
  (exists c, In c (base64String T) /\ ~ is_base64_symbol c) \/
  In Base64.PAD (Base64.strip_padding (base64String T)) \/
  (N.of_nat (length (base64String T)) mod 4 = 1)%N ->
  Base64.forgiving_base64_decode (base64String T) = None /\
  convertTextToZipBlob T = Throw InvalidEncodingError.
Proof.
  intros [(c & Hin & Hc)|[Hpad|Hl]].
  - pose proof (decode_bad_symbol _ _ Hin Hc) as Hd.
    split; [assumption|]. apply convert_invalid; [|assumption].
    intros E. rewrite E in Hin. contradiction.
  - pose proof (decode_bad_padding _ Hpad) as Hd.
    split; [assumption|]. apply convert_invalid; [|assumption].
    intros E. rewrite E in Hpad. contradiction.
  - pose proof (decode_bad_length _ Hl) as Hd.
    split; [assumption|]. apply convert_invalid; [|assumption].
    intros E. rewrite E in Hl. discriminate.
Qed.

(** The two lines "!!!!" and "@@@@". *)
Lemma C6_invalid_encoding_witness :
  convertTextToZipBlob (lit "!!!!" ++ [LF] ++ lit "@@@@")
  = Throw InvalidEncodingError.
Proof.
  apply (C6_invalid_encoding (lit "!!!!" ++ [LF] ++ lit "@@@@")).
  left. exists 33%N. split.
  - vm_compute. tauto.
  - intros [H|H]; [apply H; reflexivity|discriminate].
Defined.

(** C6 as stated fails on the text "QQ": it is no RFC 4648 encoding (the
    padding is missing and the length is 2), yet the platform decoder
    accepts it and the converter returns the byte 0x41. *)
Lemma C6_counterexample_unpadded :
  base64String (lit "QQ") = lit "QQ" /\
  lit "QQ" <> [] /\
  (forall B, Base64.base64_encode B <> lit "QQ") /\
  convertTextToZipBlob (lit "QQ") = Ok (mkBlob [x41] "application/zip").
Proof.
  repeat split.
  - discriminate.
  - intros [|x [|y [|z rest]]]; simpl; discriminate.
Qed.

(** C7: a text that is empty, or whose lines reversed, joined and stripped
    of whitespace leave the empty string, makes the converter fail with the
    empty-input error, whatever the decoder would do. *)
Theorem C7_empty_input (T : jsstring) :
  T = [] \/ base64String T = [] ->
  convertTextToZipBlob T = Throw EmptyInputError /\
  forall atob, convertTextToZipBlob_with atob T = Throw EmptyInputError.
Proof.
  intros H.
  assert (Hs : base64String T = []) by (destruct H as [->|H]; auto).
  split; [|intros atob]; now apply convert_empty.
Qed.

(** A text of three blank lines. *)
Lemma C7_empty_input_witness :
  convertTextToZipBlob [32; 9; 10; 13; 10; 0xA0]%N = Throw EmptyInputError.
Proof.
  apply (C7_empty_input [32; 9; 10; 13; 10; 0xA0]%N).
  right. reflexivity.
Defined.

(** ** Reading the buffer *)

Section ViewFacts.
Import DataView.
Local Open Scope Z_scope.

Variable view : list byte.

Lemma byte_at_range (i : Z) : 0 <= byte_at view i <= 255.
Proof.
  unfold byte_at.
  pose proof (Byte.to_N_bounded (nth (Z.to_nat i) view x00)). lia.
Qed.

Lemma uint16_le_range (i : Z) : 0 <= uint16_le view i <= 65535.
Proof.
  unfold uint16_le.
  pose proof (byte_at_range i). pose proof (byte_at_range (i + 1)). lia.
Qed.

Lemma uint32_le_range (i : Z) : 0 <= uint32_le view i <= 4294967295.
Proof.
  unfold uint32_le.
  pose proof (byte_at_range i). pose proof (byte_at_range (i + 1)).
  pose proof (byte_at_range (i + 2)). pose proof (byte_at_range (i + 3)).
  lia.
Qed.

Lemma getUint16_inside (i : Z) :
  0 <= i -> i + 2 <= byteLength view ->
  getUint16 view i = Ok (uint16_le view i).
Proof.
  intros H0 H1. unfold getUint16.
  destruct (i <? 0) eqn:E1; boolprop; [lia|].
  destruct (i + 2 >? byteLength view) eqn:E2; boolprop; [lia|].
  reflexivity.
Qed.

Lemma getUint32_inside (i : Z) :
  0 <= i -> i + 4 <= byteLength view ->
  getUint32 view i = Ok (uint32_le view i).
Proof.
  intros H0 H1. unfold getUint32.
  destruct (i <? 0) eqn:E1; boolprop; [lia|].
  destruct (i + 4 >? byteLength view) eqn:E2; boolprop; [lia|].
  reflexivity.
Qed.

Lemma header_size_min (off : Z) : 46 <= header_size view off.
Proof.
  unfold header_size.
  pose proof (uint16_le_range (off + 28)).
  pose proof (uint16_le_range (off + 30)).
  pose proof (uint16_le_range (off + 32)). lia.
Qed.

Lemma subarray_inside (b e : Z) :
  0 <= b -> b <= e -> e <= byteLength view ->
  Uint8Array.subarray view b e
  = firstn (Z.to_nat (e - b)) (skipn (Z.to_nat b) view).
Proof.
  intros Hb Hbe He. unfold Uint8Array.subarray, Uint8Array.relative_index.
  unfold byteLength in He.
  destruct (b <? 0) eqn:E1; boolprop; [lia|].
  destruct (e <? 0) eqn:E2; boolprop; [lia|].
  do 2 f_equal; lia.
Qed.

(** An end index beyond the buffer is clamped to its length. *)
Lemma subarray_clamped (b e : Z) :
  0 <= b -> b <= byteLength view -> byteLength view < e ->
  Uint8Array.subarray view b e = skipn (Z.to_nat b) view.
Proof.
  intros Hb Hbl He. unfold Uint8Array.subarray, Uint8Array.relative_index.
  unfold byteLength in *.
  destruct (b <? 0) eqn:E1; boolprop; [lia|].
  destruct (e <? 0) eqn:E2; boolprop; [lia|].
  rewrite (Z.min_l b), (Z.min_r e) by lia.
  apply firstn_all2. rewrite length_skipn. lia.
Qed.
End ViewFacts.

(** ** The backward search *)

Section SearchFacts.
Import DataView.
Local Open Scope Z_scope.

Variable view : list byte.

Lemma countdown_In (hi : Z) (n : nat) (i : Z) :
  In i (countdown hi n) <-> hi - Z.of_nat n < i <= hi.
Proof.
  revert hi. induction n as [|n IH]; intros hi; simpl countdown.
  - simpl. lia.
  - simpl In. rewrite IH. lia.
Qed.

Lemma eocd_candidates_In (i : Z) :
  In i (eocd_candidates (byteLength view)) <-> in_window view i.
Proof.
  unfold eocd_candidates, in_window. rewrite countdown_In. cbv zeta. lia.
Qed.

(** The search over [n] offsets below [hi], all inside the buffer, returns
    the highest one that carries the signature, or [-1]. *)
Lemma find_eocd_countdown (n : nat) (hi : Z) :
  0 <= hi - Z.of_nat n + 1 -> hi + 4 <= byteLength view ->
  (find_eocd view (countdown hi n) = Ok (-1) /\
   forall i, hi - Z.of_nat n < i <= hi -> ~ eocd_signature_at view i)
  \/
  (exists e, find_eocd view (countdown hi n) = Ok e /\
     hi - Z.of_nat n < e <= hi /\ eocd_signature_at view e /\
     forall j, e < j <= hi -> ~ eocd_signature_at view j).
Proof.
  revert hi. induction n as [|n IH]; intros hi Hlo Hhi.
  - left. split; [reflexivity|]. intros i Hi. lia.
  - simpl countdown. simpl find_eocd.
    rewrite getUint32_inside by lia. simpl bind.
    destruct (uint32_le view hi =? EOCD_SIGNATURE) eqn:E; boolprop.
    + right. exists hi. repeat split; try assumption; lia.
    + destruct (IH (hi - 1)) as [[Hf Hn]|(e & Hf & He & Hs & Hn)];
        try lia.
      * left. split; [assumption|]. intros i Hi.
        destruct (Z.eq_dec i hi) as [->|Hne]; [assumption|].
        apply Hn. lia.
      * right. exists e. repeat split; try assumption; try lia.
        intros j Hj.
        destruct (Z.eq_dec j hi) as [->|Hne]; [assumption|].
        apply Hn. lia.
Qed.

Lemma find_eocd_window :
  (find_eocd view (eocd_candidates (byteLength view)) = Ok (-1) /\
   forall i, in_window view i -> ~ eocd_signature_at view i)
  \/
  (exists e, find_eocd view (eocd_candidates (byteLength view)) = Ok e /\
     authoritative_eocd view e).
Proof.
  unfold eocd_candidates, authoritative_eocd, in_window. cbv zeta.
  set (len := byteLength view).
  assert (Hlen : 0 <= len) by (unfold len, byteLength; lia).
  destruct (Z_lt_le_dec len 22) as [Hshort|Hlong].
  - left. replace (Z.to_nat _) with 0%nat by lia.
    split; [reflexivity|]. intros i Hi. lia.
  - set (n := Z.to_nat (len - 22 - (len - Z.min len (65535 + 22)) + 1)).
    destruct (find_eocd_countdown n (len - 22))
      as [[Hf Hn]|(e & Hf & He & Hs & Hn)]; try (unfold n; lia).
    + left. split; [assumption|]. intros i Hi. apply Hn. unfold n. lia.
    + right. exists e. unfold n in He.
      repeat split; try assumption; lia.
Qed.

Lemma find_eocd_authoritative (e : Z) :
  authoritative_eocd view e ->
  find_eocd view (eocd_candidates (byteLength view)) = Ok e.
Proof.
  intros (Hw & Hs & Hmax).
  destruct find_eocd_window as [[_ Hn]|(e' & Hf & Hw' & Hs' & Hmax')].
  - exfalso. exact (Hn e Hw Hs).
  - rewrite Hf. f_equal.
    unfold in_window in Hw, Hw'. cbv zeta in Hw, Hw'.
    destruct (Z.lt_trichotomy e e') as [Hlt|[Heq|Hgt]]; [|now symmetry|].
    + exfalso. apply (Hmax e'); [lia|assumption].
    + exfalso. apply (Hmax' e); [lia|assumption].
Qed.
End SearchFacts.

(** ** The walk over the central directory *)

Section WalkFacts.
Import DataView.
Local Open Scope Z_scope.

Variable view : list byte.

Lemma walk_accept (k : nat) (off : Z) (files : list jsstring) :
  0 <= off -> header_accepted view off = true ->
  walk view view (byteLength view) (S k) off files
  = walk view view (byteLength view) k (off + header_size view off)
      (files ++ [header_name view off]).
Proof.
  intros H0 Ha. unfold header_accepted in Ha. boolprop.
  cbn [walk].
  destruct (off + 46 >? byteLength view) eqn:E; boolprop; [lia|].
  rewrite getUint32_inside by lia. cbn [bind].
  replace (uint32_le view off =? CDH_SIGNATURE) with true
    by (symmetry; now apply Z.eqb_eq).
  cbn [negb]. rewrite !getUint16_inside by lia. cbn [bind].
  reflexivity.
Qed.

Lemma walk_reject (k : nat) (off : Z) (files : list jsstring) :
  0 <= off -> header_accepted view off = false ->
  walk view view (byteLength view) (S k) off files = Ok files.
Proof.
  intros H0 Ha. unfold header_accepted in Ha. cbn [walk].
  destruct (off + 46 >? byteLength view) eqn:E; [reflexivity|].
  boolprop; [lia|].
  rewrite getUint32_inside by lia. cbn [bind].
  replace (uint32_le view off =? CDH_SIGNATURE) with false
    by (symmetry; now apply Z.eqb_neq).
  reflexivity.
Qed.

Lemma walk_stop (m : nat) (off : Z) (files : list jsstring) :
  0 <= off -> m = 0%nat \/ header_accepted view off = false ->
  walk view view (byteLength view) m off files = Ok files.
Proof.
  intros H0 [->|Ha]; [reflexivity|].
  destruct m; [reflexivity|]. now apply walk_reject.
Qed.

Lemma accepted_run_stop (start : Z) (hs : list Z) (stop : Z) :
  accepted_run view start hs stop -> 0 <= start -> 0 <= stop.
Proof.
  induction 1 as [off|off hs stop Ha _ IH]; intros H0; [assumption|].
  apply IH. pose proof (header_size_min view off). lia.
Qed.

Lemma accepted_run_snoc (start : Z) (hs : list Z) (off : Z) :
  accepted_run view start hs off -> header_accepted view off = true ->
  accepted_run view start (hs ++ [off]) (off + header_size view off).
Proof.
  induction 1 as [off|start hs off Ha _ IH]; intros Hoff; simpl.
  - apply run_cons; [assumption|constructor].
  - apply run_cons; [assumption|]. now apply IH.
Qed.

(** The walk goes through a run of accepted headers, one name each. *)
Lemma walk_run (start : Z) (hs : list Z) (stop : Z) :
  accepted_run view start hs stop -> 0 <= start ->
  forall (m : nat) (files : list jsstring),
    walk view view (byteLength view) (length hs + m) start files
    = walk view view (byteLength view) m stop
        (files ++ map (header_name view) hs).
Proof.
  induction 1 as [off|off hs stop Ha _ IH]; intros H0 m files.
  - simpl. now rewrite app_nil_r.
  - simpl length. simpl plus. rewrite walk_accept by assumption.
    rewrite IH by (pose proof (header_size_min view off); lia).
    simpl map. now rewrite <- app_assoc.
Qed.

(** Every walk is such a run, ended by the count or by a failed check. *)
Lemma walk_total (n : nat) (off : Z) (files : list jsstring) :
  0 <= off ->
  exists hs stop,
    accepted_run view off hs stop /\
    (length hs <= n)%nat /\
    (length hs = n \/ header_accepted view stop = false) /\
    walk view view (byteLength view) n off files
    = Ok (files ++ map (header_name view) hs).
Proof.
  revert off files. induction n as [|n IH]; intros off files H0.
  - exists [], off. split; [constructor|]. split; [simpl; lia|].
    split; [now left|]. simpl. now rewrite app_nil_r.
  - destruct (header_accepted view off) eqn:Ha.
    + destruct (IH (off + header_size view off)
                  (files ++ [header_name view off]))
        as (hs & stop & Hrun & Hle & Hend & Hw).
      { pose proof (header_size_min view off). lia. }
      exists (off :: hs), stop. repeat split.
      * now apply run_cons.
      * simpl. lia.
      * destruct Hend as [Hend|Hend]; [left; simpl; lia|now right].
      * rewrite walk_accept, Hw by assumption.
        simpl map. now rewrite <- app_assoc.
    + exists [], off. split; [constructor|]. split; [simpl; lia|].
      split; [now right|].
      rewrite walk_reject by assumption. simpl. now rewrite app_nil_r.
Qed.

(** The names of a complete central directory. *)
Lemma walk_central_directory (off : Z) (names : list (list byte)) :
  central_directory view off names -> 0 <= off ->
  forall files,
    walk view view (byteLength view) (length names) off files
    = Ok (files ++ map TextDecoder.decode names).
Proof.
  induction 1 as [off|off name names Hin Hsig Hlen Hname _ IH];
    intros H0 files.
  - simpl. now rewrite app_nil_r.
  - simpl length. rewrite walk_accept; [|assumption|].
    2:{ unfold header_accepted. apply andb_true_iff. split.
        - apply Z.leb_le. lia.
        - now apply Z.eqb_eq. }
    rewrite IH by (pose proof (header_size_min view off); lia).
    simpl map. rewrite <- app_assoc.
    unfold header_name. rewrite Hlen, subarray_inside by lia.
    replace (Z.to_nat (off + 46 + Z.of_nat (length name) - (off + 46)))
      with (length name) by lia.
    now rewrite Hname.
Qed.
End WalkFacts.

(** ** The scanner as a whole *)

Section ScanFacts.
Import DataView.
Local Open Scope Z_scope.

Variable blob : Blob.

Lemma scan_try_no_eocd :
  (forall i, in_window (arrayBuffer blob) i ->
             ~ eocd_signature_at (arrayBuffer blob) i) ->
  find_eocd (arrayBuffer blob)
    (eocd_candidates (byteLength (arrayBuffer blob))) = Ok (-1) /\
  getZipFileList_try blob = Ok [].
Proof.
  intros Hnone. unfold getZipFileList_try. cbv zeta.
  destruct (find_eocd_window (arrayBuffer blob))
    as [[Hf _]|(e & _ & Hw & Hs & _)].
  - rewrite Hf. split; reflexivity.
  - exfalso. exact (Hnone e Hw Hs).
Qed.

Lemma scan_try_eocd (e : Z) :
  authoritative_eocd (arrayBuffer blob) e ->
  getZipFileList_try blob
  = walk (arrayBuffer blob) (arrayBuffer blob)
      (byteLength (arrayBuffer blob))
      (Z.to_nat (uint16_le (arrayBuffer blob) (e + 10)))
      (uint32_le (arrayBuffer blob) (e + 16)) [].
Proof.
  intros Ha. unfold getZipFileList_try. cbv zeta.
  rewrite (find_eocd_authoritative _ _ Ha). cbn [bind].
  destruct Ha as (Hw & _). unfold in_window in Hw. cbv zeta in Hw.
  destruct (e =? -1) eqn:E; boolprop; [lia|].
  rewrite getUint16_inside, getUint32_inside by lia.
  reflexivity.
Qed.

Lemma scan_caught (names : list jsstring) :
  getZipFileList_try blob = Ok names -> getZipFileList blob = Ok names.
Proof. unfold getZipFileList. now intros ->. Qed.

(** The [try] block always completes: no read is out of range. *)
Lemma scan_try_total :
  exists names, getZipFileList_try blob = Ok names.
Proof.
  destruct (find_eocd_window (arrayBuffer blob))
    as [[Hf Hn]|(e & Hf & Ha)].
  - exists []. now apply scan_try_no_eocd.
  - rewrite (scan_try_eocd _ Ha).
    destruct (walk_total (arrayBuffer blob)
                (Z.to_nat (uint16_le (arrayBuffer blob) (e + 10)))
                (uint32_le (arrayBuffer blob) (e + 16)) [])
      as (hs & stop & _ & _ & _ & Hw).
    + apply uint32_le_range.
    + rewrite Hw. eauto.
Qed.
End ScanFacts.

(** ** The name decoder *)

Section DecoderFacts.
Import TextDecoder.
Local Open Scope N_scope.

(** A state that waits for [k + 1] more bytes either meets an error or
    consumes exactly these bytes, the first within the boundaries of the
    state and the others continuation bytes, and emits one code point. *)
Lemma run_pending (k : nat) :
  forall (st : state) (bs : list N),
    bytes_needed st = bytes_seen st + N.of_nat (S k) ->
    In REPLACEMENT (run st bs) \/
    exists c cs rest cp,
      bs = c :: cs ++ rest /\ length cs = k /\
      lower_boundary st <= c <= upper_boundary st /\
      Forall continuation cs /\
      run st bs = cp :: run initial rest.
Proof.
  induction k as [|k IH]; intros st bs Hst.
  - destruct bs as [|c rest]; cbn [run].
    + destruct (bytes_needed st =? 0) eqn:En; boolprop; [lia|].
      left. now left.
    + destruct (bytes_needed st =? 0) eqn:En; boolprop; [lia|].
      destruct ((c <? lower_boundary st) || (upper_boundary st <? c)) eqn:Er.
      * left. destruct (lead c). now left.
      * boolprop.
        destruct (bytes_seen st + 1 =? bytes_needed st) eqn:Es;
          boolprop; [|lia].
        right. exists c, [], rest. eexists.
        repeat split; try constructor; try lia.
  - destruct bs as [|c rest]; cbn [run].
    + destruct (bytes_needed st =? 0) eqn:En; boolprop; [lia|].
      left. now left.
    + destruct (bytes_needed st =? 0) eqn:En; boolprop; [lia|].
      destruct ((c <? lower_boundary st) || (upper_boundary st <? c)) eqn:Er.
      * left. destruct (lead c). now left.
      * boolprop.
        destruct (bytes_seen st + 1 =? bytes_needed st) eqn:Es;
          boolprop; [lia|].
        match goal with
        | |- In _ (run ?st' rest) \/ _ =>
            destruct (IH st' rest) as [Herr|(c' & cs & rest' & cp & Hx)]
        end.
        { simpl. lia. }
        { now left. }
        destruct Hx as (Hbs & Hlen & Hc' & Hcs & Hrun). simpl in Hc'.
        right. exists c, (c' :: cs), rest', cp.
        repeat split; try lia.
        -- now rewrite Hbs.
        -- simpl. now rewrite Hlen.
        -- constructor; [exact Hc'|exact Hcs].
        -- exact Hrun.
Qed.

Lemma in_range_true (lo hi b : N) :
  (lo <=? b) && (b <=? hi) = true -> lo <= b <= hi.
Proof. intros H. boolprop. lia. Qed.

Lemma in_range_false (lo hi b : N) :
  (lo <=? b) && (b <=? hi) = false -> b < lo \/ hi < b.
Proof. intros H. boolprop; lia. Qed.

(** The decoder meets an error on every byte sequence that is not
    well-formed. *)
Lemma run_well_formed_or_error (n : nat) :
  forall bs : list N,
    (length bs <= n)%nat ->
    well_formed_utf8 bs \/ In REPLACEMENT (run initial bs).
Proof.
  induction n as [|n IH]; intros bs Hlen.
  - destruct bs; [left; constructor|simpl in Hlen; lia].
  - destruct bs as [|b rest]; [left; constructor|].
    simpl in Hlen. cbn [run]. change (bytes_needed initial =? 0) with true.
    cbv iota. unfold lead.
    destruct (b <=? 0x7F) eqn:E1; boolprop.
    { destruct (IH rest) as [Hwf|Herr]; [lia| |].
      - left. now apply wf_ascii.
      - right. simpl. now right. }
    destruct ((0xC2 <=? b) && (b <=? 0xDF)) eqn:E2;
      [apply in_range_true in E2|apply in_range_false in E2].
    { cbn [app].
      match goal with
      | |- _ \/ In _ (run ?st rest) =>
          destruct (run_pending 0 st rest) as [Herr|(c & cs & r & cp & Hx)]
      end; [reflexivity|now right|].
      destruct Hx as (Hbs & Hcs & Hc & _ & Hrun). simpl in Hc.
      destruct cs; [|discriminate]. simpl in Hbs. subst rest. simpl in Hlen.
      rewrite Hrun.
      destruct (IH r) as [Hwf|Herr]; [lia| |].
      - left. now apply wf_two.
      - right. now right. }
    destruct ((0xE0 <=? b) && (b <=? 0xEF)) eqn:E3;
      [apply in_range_true in E3|apply in_range_false in E3].
    { cbn [app].
      match goal with
      | |- _ \/ In _ (run ?st rest) =>
          destruct (run_pending 1 st rest) as [Herr|(c & cs & r & cp & Hx)]
      end; [reflexivity|now right|].
      destruct Hx as (Hbs & Hcs & Hc & Hcont & Hrun). simpl in Hc.
      destruct cs as [|d [|]]; try discriminate.
      inversion Hcont as [|? ? Hd _]; subst.
      unfold continuation in Hd. simpl in Hlen. rewrite Hrun.
      destruct (IH r) as [Hwf|Herr]; [lia| |]; [|right; now right].
      left. simpl app.
      destruct (b =? 0xE0) eqn:B0; destruct (b =? 0xED) eqn:B1; boolprop.
      - lia.
      - subst b. now apply wf_three_E0.
      - subst b. now apply wf_three_ED.
      - assert (Hb : 0xE1 <= b <= 0xEC \/ 0xEE <= b <= 0xEF) by lia.
        destruct Hb.
        + now apply wf_three_E1_EC.
        + now apply wf_three_EE_EF. }
    destruct ((0xF0 <=? b) && (b <=? 0xF4)) eqn:E4;
      [apply in_range_true in E4|apply in_range_false in E4].
    { cbn [app].
      match goal with
      | |- _ \/ In _ (run ?st rest) =>
          destruct (run_pending 2 st rest) as [Herr|(c & cs & r & cp & Hx)]
      end; [reflexivity|now right|].
      destruct Hx as (Hbs & Hcs & Hc & Hcont & Hrun). simpl in Hc.
      destruct cs as [|d [|e [|]]]; try discriminate.
      inversion Hcont as [|? ? Hd Hcont']; subst.
      inversion Hcont' as [|? ? He _]; subst.
      unfold continuation in Hd, He. simpl in Hlen. rewrite Hrun.
      destruct (IH r) as [Hwf|Herr]; [lia| |]; [|right; now right].
      left. simpl app.
      destruct (b =? 0xF0) eqn:B0; destruct (b =? 0xF4) eqn:B1; boolprop.
      - lia.
      - subst b. now apply wf_four_F0.
      - subst b. now apply wf_four_F4.
      - apply wf_four_F1_F3; try assumption. lia. }
    right. simpl. now left.
Qed.

Lemma strip_bom_keeps (c : N) (cps : list N) :
  c <> 0xFEFF -> In c cps -> In c (strip_bom cps).
Proof.
  intros Hc Hin. destruct cps as [|h cps]; [easy|]. simpl.
  destruct (h =? 0xFEFF) eqn:E; [|assumption].
  boolprop. destruct Hin as [->|Hin]; [congruence|assumption].
Qed.

(** Bytes that are no well-formed UTF-8 are decoded to a string that
    contains U+FFFD. *)
Lemma decode_ill_formed (bytes : list byte) :
  ~ well_formed_utf8 (map Byte.to_N bytes) ->
  In REPLACEMENT (decode bytes).
Proof.
  intros Hill. unfold decode.
  apply in_flat_map. exists REPLACEMENT. split; [|now left].
  apply strip_bom_keeps; [discriminate|].
  destruct (run_well_formed_or_error _ (map Byte.to_N bytes) (le_n _))
    as [Hwf|Herr]; [contradiction|assumption].
Qed.

(** ASCII names are returned as they are. *)
Lemma run_ascii (bs : list N) :
  Forall (fun b => b <= 0x7F) bs -> run initial bs = bs.
Proof.
  induction 1 as [|b bs Hb _ IH]; [reflexivity|].
  cbn [run]. change (bytes_needed initial =? 0) with true. cbv iota.
  unfold lead. apply N.leb_le in Hb. rewrite Hb. simpl. now rewrite IH.
Qed.

Lemma decode_ascii (bytes : list byte) :
  Forall (fun b => Byte.to_N b <= 0x7F) bytes ->
  decode bytes = map Byte.to_N bytes.
Proof.
  intros Hascii. unfold decode. rewrite run_ascii.
  2:{ apply Forall_map. exact Hascii. }
  assert (Hsmall : Forall (fun c => c <= 0x7F) (map Byte.to_N bytes))
    by (apply Forall_map; exact Hascii).
  assert (Hbom : strip_bom (map Byte.to_N bytes) = map Byte.to_N bytes).
  { destruct Hsmall as [|c cs Hc _]; [reflexivity|]. simpl.
    destruct (c =? 0xFEFF) eqn:E; boolprop; [lia|reflexivity]. }
  rewrite Hbom. clear Hbom.
  induction Hsmall as [|c cs Hc _ IH]; [reflexivity|].
  simpl. unfold utf16 at 1.
  destruct (c <? 0x10000) eqn:E; boolprop; [|lia].
  simpl. now rewrite IH.
Qed.

Lemma decode_ascii_names (names : list (list byte)) :
  Forall (Forall (fun b => Byte.to_N b <= 0x7F)) names ->
  map decode names = map (map Byte.to_N) names.
Proof.
  induction 1 as [|name names Hname _ IH]; [reflexivity|].
  simpl. now rewrite decode_ascii, IH.
Qed.
End DecoderFacts.

(** ** Statements about the scanner *)

Section ScanStatements.
Import DataView.
Local Open Scope Z_scope.

Lemma countdown_nth (n : nat) (hi : Z) (k : nat) :
  (k < n)%nat -> nth k (countdown hi n) 0 = hi - Z.of_nat k.
Proof.
  revert hi k. induction n as [|n IH]; intros hi k Hk; [lia|].
  destruct k as [|k]; simpl; [lia|].
  rewrite IH by lia. lia.
Qed.

Lemma countdown_length (n : nat) (hi : Z) : length (countdown hi n) = n.
Proof. revert hi. induction n; intros hi; simpl; auto. Qed.

Lemma scan_eocd (blob : Blob) (e : Z) :
  authoritative_eocd (arrayBuffer blob) e ->
  getZipFileList blob
  = walk (arrayBuffer blob) (arrayBuffer blob)
      (byteLength (arrayBuffer blob))
      (Z.to_nat (uint16_le (arrayBuffer blob) (e + 10)))
      (uint32_le (arrayBuffer blob) (e + 16)) [].
Proof.
  intros Ha. destruct (scan_try_total blob) as [names Hn].
  rewrite (scan_caught _ _ Hn). rewrite <- Hn. now apply scan_try_eocd.
Qed.
End ScanStatements.

(** C2: on every buffer the scanner returns a list of names.  No read of
    its [try] block is ever out of range, so the block itself completes
    and the handler is never entered. *)
Theorem C2_scanner_total (blob : Blob) :
  exists names,
    getZipFileList_try blob = Ok names /\ getZipFileList blob = Ok names.
Proof.
  destruct (scan_try_total blob) as [names Hn].
  exists names. split; [assumption|]. now apply scan_caught.
Qed.

(** C3: the offsets examined are those from [len - 22] down to
    [max 0 (len - min len (65535 + 22))], in descending order; the match
    with the highest offset is the one the scanner reads the trailer fields
    from, so of two matches in the window the one closer to the end wins;
    and without a match in the window the result is empty. *)
Theorem C3_eocd_location (blob : Blob) :
  let view := arrayBuffer blob in
  let len := DataView.byteLength view in
  let lo := Z.max 0 (len - Z.min len (65535 + 22)) in
  let found := find_eocd view (eocd_candidates len) in
  ((forall i, In i (eocd_candidates len) <-> lo <= i <= len - 22) /\
   (forall k, (k < length (eocd_candidates len))%nat ->
      nth k (eocd_candidates len) 0 = len - 22 - Z.of_nat k) /\
   (forall e, lo <= e <= len - 22 ->
      DataView.uint32_le view e = EOCD_SIGNATURE ->
      (forall j, e < j <= len - 22 ->
         DataView.uint32_le view j <> EOCD_SIGNATURE) ->
      found = Ok e /\
      getZipFileList blob
      = walk view view len (Z.to_nat (DataView.uint16_le view (e + 10)))
          (DataView.uint32_le view (e + 16)) []) /\
   (forall i, lo <= i <= len - 22 ->
      DataView.uint32_le view i = EOCD_SIGNATURE ->
      exists e, found = Ok e /\ i <= e <= len - 22 /\
                DataView.uint32_le view e = EOCD_SIGNATURE) /\
   ((forall i, lo <= i <= len - 22 ->
       DataView.uint32_le view i <> EOCD_SIGNATURE) ->
    found = Ok (-1) /\ getZipFileList blob = Ok []))%Z.
Proof.
  intros view len lo found.
  split; [|split; [|split; [|split]]].
  - intros i. apply eocd_candidates_In.
  - intros k Hk. unfold eocd_candidates in *. cbv zeta in *.
    rewrite countdown_length in Hk. now apply countdown_nth.
  - intros e He Hs Hmax.
    assert (Ha : authoritative_eocd view e) by (repeat split; assumption || lia).
    split; [now apply find_eocd_authoritative|now apply scan_eocd].
  - intros i Hi Hs.
    destruct (find_eocd_window view) as [[_ Hn]|(e & Hf & Hw & Hs' & Hmax)].
    + exfalso. apply (Hn i); [exact Hi|exact Hs].
    + exists e. split; [exact Hf|]. split; [|exact Hs'].
      unfold in_window in Hw. cbv zeta in Hw. fold len in Hw.
      split; [|lia].
      destruct (Z_le_gt_dec i e) as [Hle|Hgt]; [assumption|].
      exfalso. apply (Hmax i); [fold len; lia|exact Hs].
  - intros Hnone.
    destruct (scan_try_no_eocd blob) as [Hf Ht].
    + intros i Hi. apply Hnone. exact Hi.
    + split; [exact Hf|now apply scan_caught].
Qed.

(** Of the two EOCD records of [two_eocd_archive], at offsets 47 and 69,
    the second is read. *)
Lemma C3_eocd_location_witness :
  find_eocd (arrayBuffer two_eocd_archive)
    (eocd_candidates (DataView.byteLength (arrayBuffer two_eocd_archive)))
  = Ok 69%Z /\
  getZipFileList two_eocd_archive = Ok [].
Proof.
  destruct (C3_eocd_location two_eocd_archive) as (_ & _ & H & _).
  destruct (H 69%Z) as [Hf Hscan].
  - vm_compute. split; discriminate.
  - reflexivity.
  - intros j Hj. exfalso. buffer_length Hj. lia.
  - split; [exact Hf|reflexivity].
Defined.

(** C4: on a buffer with a well-formed central directory behind its
    authoritative EOCD the scanner returns the decoded names in directory
    order (names of ASCII bytes are returned as they are); on the buffer
    made of one header named "test.txt" and its EOCD it returns that one
    name. *)
Theorem C4_well_formed_archive (blob : Blob) (names : list (list byte)) :
  (well_formed_archive (arrayBuffer blob) names ->
   getZipFileList blob = Ok (map TextDecoder.decode names) /\
   (Forall (Forall (fun b => (Byte.to_N b <= 0x7F)%N)) names ->
    getZipFileList blob = Ok (map (map Byte.to_N) names))) /\
  getZipFileList test_txt_archive = Ok [lit "test.txt"].
Proof.
  split; [|reflexivity].
  intros (e & Ha & Hcount & Hcd).
  assert (Hscan : getZipFileList blob = Ok (map TextDecoder.decode names)).
  { rewrite (scan_eocd _ _ Ha), Hcount, Nat2Z.id.
    rewrite (walk_central_directory _ _ _ Hcd); [reflexivity|].
    apply uint32_le_range. }
  split; [exact Hscan|].
  intros Hascii. now rewrite Hscan, decode_ascii_names.
Qed.

Lemma C4_well_formed_archive_witness :
  getZipFileList test_txt_archive
  = Ok (map TextDecoder.decode [list_byte_of_string "test.txt"]).
Proof.
  refine (proj1 (proj1 (C4_well_formed_archive test_txt_archive
                         [list_byte_of_string "test.txt"]) _)).
  exists 54%Z. split; [eocd_at_end|]. split; [reflexivity|].
  apply cd_header.
  - vm_compute. discriminate.
  - reflexivity.
  - reflexivity.
  - reflexivity.
  - apply cd_end.
Defined.

(** C5: when the EOCD declares more entries than there are accepted
    headers in a row, the scanner returns the names of exactly those
    headers: the walk ends at the first cursor whose bounds check or
    signature check fails. *)
Theorem C5_truncated_walk (blob : Blob) (e : Z) (hs : list Z) (stop : Z) :
  let view := arrayBuffer blob in
  authoritative_eocd view e ->
  accepted_run view (DataView.uint32_le view (e + 16)) hs stop ->
  (Z.of_nat (length hs) < DataView.uint16_le view (e + 10))%Z ->
  header_accepted view stop = false ->
  getZipFileList blob = Ok (map (header_name view) hs).
Proof.
  intros view Ha Hrun Hcount Hstop.
  pose proof (uint32_le_range view (e + 16)) as Hstart.
  rewrite (scan_eocd _ _ Ha). fold view.
  replace (Z.to_nat (DataView.uint16_le view (e + 10)))
    with (length hs
          + (Z.to_nat (DataView.uint16_le view (e + 10)) - length hs))%nat
    by lia.
  rewrite (walk_run _ _ _ _ Hrun) by lia.
  apply walk_stop; [|now right].
  apply (accepted_run_stop _ _ _ _ Hrun). lia.
Qed.

(** Five entries declared, one header in the buffer. *)
Lemma C5_truncated_walk_witness :
  getZipFileList overcounted_archive
  = Ok (map (header_name (arrayBuffer overcounted_archive)) [0%Z]).
Proof.
  apply (C5_truncated_walk overcounted_archive 54%Z [0%Z] 54%Z).
  - eocd_at_end.
  - apply run_cons; [reflexivity|]. apply run_nil.
  - vm_compute. reflexivity.
  - reflexivity.
Defined.

(** C8: a header that passes both checks but whose name field runs past
    the end of the buffer still yields an entry; its name is decoded from
    the bytes between the name offset and the end of the buffer, and it is
    the last entry of the result. *)
Theorem C8_name_clamped (blob : Blob) (e : Z) (hs : list Z) (off : Z) :
  let view := arrayBuffer blob in
  authoritative_eocd view e ->
  accepted_run view (DataView.uint32_le view (e + 16)) hs off ->
  (Z.of_nat (length hs) < DataView.uint16_le view (e + 10))%Z ->
  header_accepted view off = true ->
  (DataView.byteLength view < off + 46 + name_length view off)%Z ->
  getZipFileList blob
  = Ok (map (header_name view) hs
        ++ [TextDecoder.decode (skipn (Z.to_nat (off + 46)) view)]).
Proof.
  intros view Ha Hrun Hcount Hoff Hlong.
  pose proof (uint32_le_range view (e + 16)) as Hstart.
  assert (H0 : (0 <= off)%Z)
    by (apply (accepted_run_stop _ _ _ _ Hrun); lia).
  pose proof (accepted_run_snoc _ _ _ _ Hrun Hoff) as Hrun'.
  assert (Hname : header_name view off
                  = TextDecoder.decode (skipn (Z.to_nat (off + 46)) view)).
  { unfold header_name. f_equal. apply subarray_clamped; try lia.
    unfold header_accepted in Hoff. boolprop. assumption. }
  assert (Hnext : header_accepted view (off + header_size view off) = false).
  { unfold header_accepted. apply andb_false_iff. left. apply Z.leb_gt.
    unfold header_size, name_length in *.
    pose proof (uint16_le_range view (off + 30)).
    pose proof (uint16_le_range view (off + 32)). lia. }
  rewrite (scan_eocd _ _ Ha). fold view.
  replace (Z.to_nat (DataView.uint16_le view (e + 10)))
    with (length (hs ++ [off])
          + (Z.to_nat (DataView.uint16_le view (e + 10))
             - length (hs ++ [off])))%nat
    by (rewrite length_app; simpl; lia).
  rewrite (walk_run _ _ _ _ Hrun') by lia.
  rewrite walk_stop.
  - simpl app. now rewrite map_app, <- Hname.
  - pose proof (header_size_min view off). lia.
  - now right.
Qed.

(** A name of 200 bytes declared 26 bytes before the end. *)
Lemma C8_name_clamped_witness :
  getZipFileList overlong_name_archive
  = Ok [TextDecoder.decode
          (skipn 46 (arrayBuffer overlong_name_archive))].
Proof.
  apply (C8_name_clamped overlong_name_archive 50%Z [] 0%Z).
  - eocd_at_end.
  - apply run_nil.
  - vm_compute. reflexivity.
  - reflexivity.
  - vm_compute. reflexivity.
Defined.

(** The run of headers a walk goes through is determined by the start
    and by the entry count. *)
Lemma accepted_run_unique (view : list byte) (n : nat) (start : Z)
    (hs1 : list Z) (stop1 : Z) :
  accepted_run view start hs1 stop1 ->
  forall (hs2 : list Z) (stop2 : Z),
    accepted_run view start hs2 stop2 ->
    (length hs1 <= n)%nat ->
    length hs1 = n \/ header_accepted view stop1 = false ->
    (length hs2 <= n)%nat ->
    length hs2 = n \/ header_accepted view stop2 = false ->
    hs1 = hs2.
Proof.
  intros Hrun1. revert n.
  induction Hrun1 as [off|off hs1 stop1 Ha1 _ IH];
    intros n hs2 stop2 Hrun2 Hle1 Hend1 Hle2 Hend2.
  - inversion Hrun2 as [|? hs2' ? Ha2 _]; subst; [reflexivity|].
    exfalso. simpl in *. destruct Hend1 as [E|E]; [lia|congruence].
  - inversion Hrun2 as [|? hs2' ? Ha2 Hrun2']; subst.
    + exfalso. simpl in *. destruct Hend2 as [E|E]; [lia|congruence].
    + destruct n as [|n]; [simpl in Hle1; lia|].
      f_equal. apply (IH n hs2' stop2 Hrun2'); simpl in *; try lia.
      * destruct Hend1 as [E|E]; [left; lia|now right].
      * destruct Hend2 as [E|E]; [left; lia|now right].
Qed.

(** C9: the result holds exactly one name per header walked, the name the
    decoder gives for its bytes.  Without an EOCD signature in the window
    no header is walked; otherwise the headers walked are the run that
    starts at the directory offset of the authoritative EOCD, in which each
    cursor lies 46 + name + extra + comment length after the one before,
    and that is ended by the entry count or by the first failed check,
    and no other run is; and name bytes that are no well-formed UTF-8 are
    decoded, with U+FFFD in the name. *)
Theorem C9_lossy_names (blob : Blob) :
  let view := arrayBuffer blob in
  (exists hs stop names,
     getZipFileList blob = Ok names /\
     names = map (header_name view) hs /\
     length names = length hs /\
     (((forall i, in_window view i -> ~ eocd_signature_at view i) /\
       hs = []) \/
      exists e,
        let count := Z.to_nat (DataView.uint16_le view (e + 10)) in
        let start := DataView.uint32_le view (e + 16) in
        authoritative_eocd view e /\
        accepted_run view start hs stop /\
        (length hs <= count)%nat /\
        (length hs = count \/ header_accepted view stop = false) /\
        (forall hs' stop',
           accepted_run view start hs' stop' ->
           (length hs' <= count)%nat ->
           length hs' = count \/ header_accepted view stop' = false ->
           hs' = hs))) /\
  (forall bytes,
     ~ well_formed_utf8 (map Byte.to_N bytes) ->
     In TextDecoder.REPLACEMENT (TextDecoder.decode bytes)).
Proof.
  intros view. split; [|exact decode_ill_formed].
  destruct (find_eocd_window view) as [[_ Hn]|(e & _ & Ha)].
  - exists [], 0%Z, []. repeat split; [|left; split; [exact Hn|reflexivity]].
    apply scan_caught. now apply scan_try_no_eocd.
  - destruct (walk_total view
                (Z.to_nat (DataView.uint16_le view (e + 10)))
                (DataView.uint32_le view (e + 16)) [])
      as (hs & stop & Hrun & Hle & Hend & Hw).
    { apply uint32_le_range. }
    exists hs, stop, (map (header_name view) hs).
    split; [|split; [reflexivity|split; [apply length_map|]]].
    + rewrite (scan_eocd _ _ Ha). exact Hw.
    + right. exists e. cbv zeta.
      split; [exact Ha|]. split; [exact Hrun|].
      split; [exact Hle|]. split; [exact Hend|].
      intros hs' stop' Hrun' Hle' Hend'.
      exact (accepted_run_unique view _ _ _ _ Hrun' _ _ Hrun
               Hle' Hend' Hle Hend).
Qed.

(** The first name of [invalid_name_archive] is the bytes FF 41. *)
Lemma C9_lossy_names_witness :
  In TextDecoder.REPLACEMENT (TextDecoder.decode [xff; x41]) /\
  getZipFileList invalid_name_archive = Ok [[0xFFFD; 0x41]; [0x62]]%N.
Proof.
  split; [|reflexivity].
  apply (proj2 (C9_lossy_names invalid_name_archive) [xff; x41]).
  intros Hwf. vm_compute in Hwf. inversion Hwf; lia.
Defined.

(** C10: on a buffer of fewer than 22 bytes the first offset [len - 22]
    is negative and below the lower bound of the loop, so no offset is
    examined and the result is empty. *)
Theorem C10_short_buffer (blob : Blob) :
  let len := DataView.byteLength (arrayBuffer blob) in
  (len < 22 ->
   len - 22 < 0 <= len - Z.min len (65535 + 22) /\
   eocd_candidates len = [] /\
   getZipFileList_try blob = Ok [] /\
   getZipFileList blob = Ok [])%Z.
Proof.
  intros len Hlen.
  assert (H0 : (0 <= len)%Z) by (unfold len, DataView.byteLength; lia).
  assert (Hc : eocd_candidates len = []).
  { unfold eocd_candidates. cbv zeta.
    replace (Z.to_nat _) with 0%nat by lia. reflexivity. }
  assert (Ht : getZipFileList_try blob = Ok []).
  { unfold getZipFileList_try. cbv zeta. fold len. now rewrite Hc. }
  split; [lia|]. split; [exact Hc|]. split; [exact Ht|].
  now apply scan_caught.
Qed.

(** Four bytes that are the EOCD signature and nothing else. *)
Lemma C10_short_buffer_witness :
  getZipFileList (zip [x50; x4b; x05; x06]) = Ok [].
Proof.
  apply (C10_short_buffer (zip [x50; x4b; x05; x06])).
  vm_compute. reflexivity.
Defined.

(** * Further properties *)

(** ** The converter and whitespace *)

Section WhitespaceFacts.
Local Open Scope N_scope.

Lemma remove_whitespace_app (a b : jsstring) :
  remove_whitespace (a ++ b) = remove_whitespace a ++ remove_whitespace b.
Proof. apply filter_app. Qed.

Lemma remove_whitespace_concat (ls : list jsstring) :
  remove_whitespace (concat ls) = concat (map remove_whitespace ls).
Proof.
  induction ls as [|l ls IH]; [reflexivity|].
  simpl. now rewrite remove_whitespace_app, IH.
Qed.

(** The decoder input is made of the lines stripped one by one. *)
Lemma base64String_lines (T : jsstring) :
  base64String T
  = concat (rev (map remove_whitespace (split_lines T))).
Proof.
  unfold base64String. now rewrite remove_whitespace_concat, map_rev.
Qed.

Lemma split_lines_nonempty (T : jsstring) : split_lines T <> [].
Proof.
  induction T as [|c T IH]; simpl; [discriminate|].
  destruct (c =? LF); [discriminate|].
  destruct ((c =? CR) && starts_with_LF T); [assumption|].
  destruct (split_lines T); discriminate.
Qed.

Lemma remove_whitespace_cons (c : code_unit) (l : jsstring) :
  remove_whitespace (c :: l)
  = if is_whitespace c then remove_whitespace l
    else c :: remove_whitespace l.
Proof. unfold remove_whitespace. simpl. now destruct (is_whitespace c). Qed.

Lemma stripped_push_front (c : code_unit) (X Y : list jsstring) :
  map remove_whitespace X = map remove_whitespace Y ->
  map remove_whitespace (push_front c X)
  = map remove_whitespace (push_front c Y).
Proof.
  destruct X as [|x X], Y as [|y Y]; cbn [map push_front];
    try discriminate; auto.
  intros H. inversion H as [[Hx HX]].
  now rewrite !remove_whitespace_cons, Hx.
Qed.

Lemma stripped_push_front_ws (c : code_unit) (X : list jsstring) :
  is_whitespace c = true -> X <> [] ->
  map remove_whitespace (push_front c X) = map remove_whitespace X.
Proof.
  intros Hc HX. destruct X as [|x X]; [congruence|].
  cbn [map push_front]. now rewrite remove_whitespace_cons, Hc.
Qed.

Lemma is_whitespace_CR : is_whitespace CR = true.
Proof. reflexivity. Qed.

(** A whitespace character other than LF, here at the front. *)
Lemma stripped_lines_ws_front (w : code_unit) (T : jsstring) :
  is_whitespace w = true -> w <> LF ->
  map remove_whitespace (split_lines (w :: T))
  = map remove_whitespace (split_lines T).
Proof.
  intros Hw Hlf. simpl.
  apply N.eqb_neq in Hlf. rewrite Hlf.
  destruct ((w =? CR) && starts_with_LF T); [reflexivity|].
  apply stripped_push_front_ws; [assumption|apply split_lines_nonempty].
Qed.

Lemma starts_with_LF_app (T1 T2 : jsstring) :
  T1 <> [] -> starts_with_LF (T1 ++ T2) = starts_with_LF T1.
Proof. destruct T1; [congruence|reflexivity]. Qed.

(** The same anywhere in the text. *)
Lemma stripped_lines_ws (w : code_unit) (T1 T2 : jsstring) :
  is_whitespace w = true -> w <> LF ->
  map remove_whitespace (split_lines (T1 ++ w :: T2))
  = map remove_whitespace (split_lines (T1 ++ T2)).
Proof.
  intros Hw Hlf. induction T1 as [|c T1 IH].
  - now apply stripped_lines_ws_front.
  - simpl app. simpl split_lines.
    destruct (c =? LF) eqn:Ec; [simpl; now rewrite IH|].
    destruct (c =? CR) eqn:Er; simpl andb.
    + boolprop. subst c.
      destruct T1 as [|d T1].
      * simpl app in *.
        assert (Hs : starts_with_LF (w :: T2) = false).
        { simpl. now apply N.eqb_neq. }
        rewrite Hs.
        rewrite stripped_push_front_ws
          by (try apply is_whitespace_CR; apply split_lines_nonempty).
        rewrite IH.
        destruct (starts_with_LF T2); [reflexivity|].
        symmetry. apply stripped_push_front_ws;
          [apply is_whitespace_CR|apply split_lines_nonempty].
      * rewrite !starts_with_LF_app by discriminate.
        destruct (starts_with_LF (d :: T1)); [exact IH|].
        now apply stripped_push_front.
    + now apply stripped_push_front.
Qed.

Lemma stripped_lines_snoc_LF (T : jsstring) :
  map remove_whitespace (split_lines (T ++ [LF]))
  = map remove_whitespace (split_lines T) ++ [[]].
Proof.
  induction T as [|c T IH]; [reflexivity|].
  simpl app. simpl split_lines.
  destruct (c =? LF) eqn:Ec; [simpl; now rewrite IH|].
  destruct (c =? CR) eqn:Er; simpl andb.
  - boolprop. subst c. destruct T as [|d T].
    + reflexivity.
    + rewrite starts_with_LF_app by discriminate.
      destruct (starts_with_LF (d :: T)); [exact IH|].
      rewrite !stripped_push_front_ws
        by (try apply is_whitespace_CR; apply split_lines_nonempty).
      exact IH.
  - pose proof (split_lines_nonempty T) as HT.
    pose proof (split_lines_nonempty (T ++ [LF])) as HT'.
    destruct (split_lines T) as [|x X]; [congruence|].
    destruct (split_lines (T ++ [LF])) as [|y Y]; [congruence|].
    cbn [map app] in IH. inversion IH as [[Hy HY]].
    cbn [map push_front app].
    now rewrite !remove_whitespace_cons, Hy, HY.
Qed.

Lemma base64String_ws (w : code_unit) (T1 T2 : jsstring) :
  is_whitespace w = true -> w <> LF ->
  base64String (T1 ++ w :: T2) = base64String (T1 ++ T2).
Proof.
  intros Hw Hlf. rewrite !base64String_lines.
  now rewrite stripped_lines_ws.
Qed.

Lemma base64String_snoc_LF (T : jsstring) :
  base64String (T ++ [LF]) = base64String T.
Proof.
  rewrite !base64String_lines, stripped_lines_snoc_LF.
  rewrite rev_app_distr. reflexivity.
Qed.

(** The converter looks at its input through [base64String] only. *)
Lemma convert_same_string (T T' : jsstring) :
  base64String T = base64String T' ->
  convertTextToZipBlob T = convertTextToZipBlob T'.
Proof.
  unfold convertTextToZipBlob, convertTextToZipBlob_with. now intros ->.
Qed.

Lemma base64String_reversed_lines (ls : list jsstring) (T : jsstring) :
  joined_lines ls T -> Forall (Forall no_break) ls ->
  base64String T = base64String (concat (rev ls)).
Proof.
  intros Hj Hls. unfold base64String at 1.
  rewrite (split_lines_joined _ _ Hj Hls).
  unfold base64String. rewrite split_lines_single.
  - simpl. now rewrite app_nil_r.
  - apply Forall_concat. now apply Forall_rev.
Qed.
End WhitespaceFacts.

(** X1: a whitespace character other than a line feed (a space, a tab, a
    carriage return, ...) may be inserted anywhere in the text, or removed
    from it, without changing what the converter returns. *)
Theorem convert_ignores_whitespace (w : code_unit) (T1 T2 : jsstring) :
  is_whitespace w = true -> w <> LF ->
  convertTextToZipBlob (T1 ++ w :: T2) = convertTextToZipBlob (T1 ++ T2).
Proof.
  intros Hw Hlf. apply convert_same_string. now apply base64String_ws.
Qed.

(** A carriage return in the middle of a line. *)
Lemma convert_ignores_whitespace_witness :
  convertTextToZipBlob (lit "QU" ++ CR :: lit "JD")
  = convertTextToZipBlob (lit "QU" ++ lit "JD").
Proof.
  apply (convert_ignores_whitespace CR (lit "QU") (lit "JD")).
  - reflexivity.
  - discriminate.
Defined.

(** X2: a line break at the end of the text, LF or CR LF, changes
    nothing. *)
Theorem convert_trailing_line_break (T : jsstring) :
  convertTextToZipBlob (T ++ [LF]) = convertTextToZipBlob T /\
  convertTextToZipBlob (T ++ [CR; LF]) = convertTextToZipBlob T.
Proof.
  split; apply convert_same_string.
  - apply base64String_snoc_LF.
  - rewrite (base64String_ws CR T [LF]) by (reflexivity || discriminate).
    apply base64String_snoc_LF.
Qed.

(** X3: a text of several lines gives what the one-line text of the same
    lines in reversed order gives. *)
Theorem convert_reversed_lines (ls : list jsstring) (T : jsstring) :
  joined_lines ls T -> Forall (Forall no_break) ls ->
  convertTextToZipBlob T = convertTextToZipBlob (concat (rev ls)).
Proof.
  intros Hj Hls. apply convert_same_string.
  now apply base64String_reversed_lines.
Qed.

(** Three lines, the second one not base64. *)
Lemma convert_reversed_lines_witness :
  convertTextToZipBlob (lit "JD" ++ [CR; LF] ++ lit "?!" ++ [LF] ++ lit "QU")
  = convertTextToZipBlob (lit "QU?!JD").
Proof.
  apply (convert_reversed_lines [lit "JD"; lit "?!"; lit "QU"]).
  - apply (joined_more (lit "JD") [CR; LF] [lit "?!"; lit "QU"]
             (lit "?!" ++ [LF] ++ lit "QU")); [constructor|].
    apply (joined_more (lit "?!") [LF] [lit "QU"] (lit "QU"));
      constructor.
  - repeat constructor; discriminate.
Defined.

(** ** The size of the decoded data *)

Section SizeFacts.
Import Base64.
Local Open Scope N_scope.

Lemma sextets_length (data : jsstring) (ns : list N) :
  sextets data = Some ns -> length ns = length data.
Proof.
  revert ns. induction data as [|c data IH]; simpl; intros ns H.
  - now inversion H.
  - destruct (b64_index c); [|discriminate].
    destruct (sextets data) as [m|]; [|discriminate].
    inversion H. simpl. now rewrite (IH m eq_refl).
Qed.

Lemma decode_loop_length_upto (n : nat) :
  forall ns : list N,
    (length ns <= n)%nat ->
    length (decode_loop 0 0 ns) = (3 * length ns / 4)%nat.
Proof.
  induction n as [|n IH]; intros ns Hn.
  - destruct ns; [reflexivity|simpl in Hn; lia].
  - destruct ns as [|a [|b [|c [|d rest]]]]; try reflexivity.
    rewrite decode_loop_group. cbv zeta.
    rewrite length_app, IH by (simpl in Hn; lia).
    simpl length.
    replace (3 * S (S (S (S (length rest)))))%nat
      with (3 * 4 + 3 * length rest)%nat by lia.
    now rewrite Nat.div_add_l.
Qed.

Lemma decode_loop_length (ns : list N) :
  length (decode_loop 0 0 ns) = (3 * length ns / 4)%nat.
Proof. now apply (decode_loop_length_upto (length ns)). Qed.
End SizeFacts.

(** X4: when the converter succeeds, the blob has 3n/4 bytes (rounded
    down), where n is the length of the stripped string without the one or
    two padding characters at the end of a string of length a multiple of
    four. *)
Theorem convert_size (T : jsstring) (blob : Blob) :
  convertTextToZipBlob T = Ok blob ->
  length (blob_bytes blob)
  = (3 * length (Base64.strip_padding (base64String T)) / 4)%nat.
Proof.
  intros Hok.
  assert (Hne : base64String T <> []).
  { intros E. unfold convertTextToZipBlob in Hok.
    rewrite (convert_empty Base64.atob T E) in Hok. discriminate. }
  destruct (Base64.forgiving_base64_decode (base64String T)) as [s|] eqn:Ed.
  - rewrite (convert_decoded T s Hne Ed) in Hok. inversion Hok. simpl.
    rewrite length_map.
    unfold Base64.forgiving_base64_decode in Ed.
    rewrite ascii_filter_base64String in Ed.
    destruct (_ =? 1)%N; [discriminate|].
    destruct (Base64.sextets _) as [ns|] eqn:Es; [|discriminate].
    inversion Ed. rewrite decode_loop_length.
    now rewrite (sextets_length _ _ Es).
  - rewrite (convert_invalid T Hne Ed) in Hok. discriminate.
Qed.

(** Seven characters and one padding character: five bytes. *)
Lemma convert_size_witness :
  length (blob_bytes (mkBlob (list_byte_of_string "hello") "application/zip"))
  = (3 * length (Base64.strip_padding (base64String (lit "aGVsbG8="))) / 4)%nat.
Proof.
  apply (convert_size (lit "aGVsbG8=")). reflexivity.
Defined.

(** ** Bounds of the scanner *)

Section BoundFacts.
Import DataView.
Local Open Scope Z_scope.

Variable view : list byte.

(** Each accepted header takes 46 bytes of the buffer of its own. *)
Lemma accepted_run_room (start : Z) (hs : list Z) (stop : Z) :
  accepted_run view start hs stop -> hs <> [] ->
  start + 46 * Z.of_nat (length hs) <= byteLength view.
Proof.
  induction 1 as [off|off hs stop Ha Hrun IH]; intros Hne; [congruence|].
  unfold header_accepted in Ha. boolprop.
  pose proof (header_size_min view off) as Hs.
  destruct hs as [|h hs].
  - simpl. lia.
  - assert (Hn : h :: hs <> []) by discriminate.
    specialize (IH Hn). simpl length in *. lia.
Qed.
End BoundFacts.

(** X5: the scanner returns at most 65535 names, and never more than
    one per 46 bytes of the buffer. *)
Theorem scan_bounded (blob : Blob) :
  exists names,
    getZipFileList blob = Ok names /\
    (Z.of_nat (length names) <= 65535)%Z /\
    (46 * Z.of_nat (length names)
     <= DataView.byteLength (arrayBuffer blob))%Z.
Proof.
  set (view := arrayBuffer blob).
  assert (Hlen : (0 <= DataView.byteLength view)%Z)
    by (unfold DataView.byteLength; lia).
  destruct (find_eocd_window view) as [[_ Hn]|(e & _ & Ha)].
  - exists []. split; [|simpl; lia].
    apply scan_caught. now apply scan_try_no_eocd.
  - pose proof (uint32_le_range view (e + 16)) as Hstart.
    pose proof (uint16_le_range view (e + 10)) as Hcount.
    destruct (walk_total view
                (Z.to_nat (DataView.uint16_le view (e + 10)))
                (DataView.uint32_le view (e + 16)) [])
      as (hs & stop & Hrun & Hle & _ & Hw); [lia|].
    exists (map (header_name view) hs).
    split; [rewrite (scan_eocd _ _ Ha); exact Hw|].
    rewrite length_map. split; [lia|].
    destruct hs as [|h hs]; [simpl; lia|].
    assert (Hne : h :: hs <> []) by discriminate.
    pose proof (accepted_run_room view _ _ _ Hrun Hne). lia.
Qed.

(** X6: an authoritative EOCD that declares no entry gives the empty
    list, whatever else the buffer holds. *)
Theorem scan_zero_entries (blob : Blob) (e : Z) :
  authoritative_eocd (arrayBuffer blob) e ->
  DataView.uint16_le (arrayBuffer blob) (e + 10) = 0%Z ->
  getZipFileList blob = Ok [].
Proof.
  intros Ha Hcount. rewrite (scan_eocd _ _ Ha), Hcount. reflexivity.
Qed.

(** The 22 bytes of an EOCD record alone. *)
Lemma scan_zero_entries_witness : getZipFileList (zip (eocd x00 x00)) = Ok [].
Proof.
  apply (scan_zero_entries (zip (eocd x00 x00)) 0%Z).
  - eocd_at_end.
  - reflexivity.
Defined.

(** ** Class lists *)

Section ClassListFacts.
Import DOMTokenList.

Lemma contains_In (token : string) (c : t) :
  contains token c = true <-> In token c.
Proof.
  unfold contains. rewrite existsb_exists. split.
  - intros (x & Hx & E). apply String.eqb_eq in E. now subst.
  - intros H. exists token. split; [assumption|apply String.eqb_refl].
Qed.

Lemma contains_add1 (token u : string) (c : t) :
  contains token (add1 c u) = String.eqb token u || contains token c.
Proof.
  unfold add1. destruct (contains u c) eqn:Eu.
  - destruct (String.eqb token u) eqn:E; [|reflexivity].
    apply String.eqb_eq in E. subst. now rewrite Eu.
  - unfold contains. rewrite existsb_app. simpl.
    rewrite orb_false_r. apply orb_comm.
Qed.

Lemma contains_add (token : string) (tokens : list string) (c : t) :
  contains token (add tokens c)
  = existsb (String.eqb token) tokens || contains token c.
Proof.
  unfold add. revert c. induction tokens as [|u tokens IH]; intros c.
  - reflexivity.
  - simpl. rewrite IH, contains_add1.
    destruct (String.eqb token u), (existsb (String.eqb token) tokens);
      reflexivity.
Qed.

Lemma contains_remove (token : string) (tokens : list string) (c : t) :
  contains token (remove tokens c)
  = negb (existsb (String.eqb token) tokens) && contains token c.
Proof.
  unfold remove. induction c as [|x c IH]; simpl.
  - now rewrite andb_false_r.
  - destruct (existsb (String.eqb x) tokens) eqn:Ex; simpl.
    + rewrite IH. destruct (String.eqb token x) eqn:E; [|reflexivity].
      apply String.eqb_eq in E. subst. rewrite Ex. reflexivity.
    + rewrite IH. destruct (String.eqb token x) eqn:E; simpl; [|reflexivity].
      apply String.eqb_eq in E. subst. now rewrite Ex.
Qed.
End ClassListFacts.

(** ** The page script *)

Section ScriptFacts.
Import JSPrim ScriptJs.

Lemma shown_hidden (c : DOMTokenList.t) :
  shown (DOMTokenList.add ["hidden"%string] c) = false.
Proof. unfold shown. now rewrite contains_add. Qed.

Lemma shown_revealed (c : DOMTokenList.t) :
  shown (DOMTokenList.remove ["hidden"%string] c) = true.
Proof. unfold shown. now rewrite contains_remove. Qed.

Lemma setStatus_status (newStatus : Status) (m : jsstring)
    (files : list jsstring) (s : State * Dom) :
  fst (setStatus newStatus m files s)
  = mkState newStatus (generatedBlob (fst s)) (outputFileName (fst s)).
Proof. destruct s as [st d]. now destruct newStatus. Qed.

Lemma setStatus_consistent (newStatus : Status) (m : jsstring)
    (files : list jsstring) (s : State * Dom) :
  ui_consistent (setStatus newStatus m files s).
Proof.
  destruct s as [st d]. unfold ui_consistent. cbv zeta.
  split; [intros p; destruct newStatus, p|repeat split; destruct newStatus];
    cbn -[DOMTokenList.add DOMTokenList.remove DOMTokenList.contains];
    rewrite ?shown_hidden, ?shown_revealed, ?contains_add, ?contains_remove;
    cbn -[DOMTokenList.contains];
    try split; intros H; try reflexivity; discriminate H.
Qed.

Lemma rendered_files_eq (files : list jsstring) :
  (if (0 <? length files)%nat then map file_item files else [empty_item])
  = rendered_files files.
Proof. now destruct files. Qed.

Lemma setStatus_success_list (files : list jsstring) (s : State * Dom) :
  fileListContainer (snd (setStatus SUCCESS [] files s))
  = rendered_files files /\
  successFileCount (snd (setStatus SUCCESS [] files s))
  = found_text (length files).
Proof.
  destruct s as [st d]. split; [|reflexivity].
  apply rendered_files_eq.
Qed.

Lemma number_file_name (now : N) :
  is_falsy (number_to_string now ++ lit ".zip") = false.
Proof. now destruct (number_to_string now). Qed.

(** A failure of the converter carries one of its two messages. *)
Lemma convert_error (T : jsstring) (e : exn) :
  convertTextToZipBlob T = Throw e ->
  (base64String T = [] /\ e = EmptyInputError) \/
  (base64String T <> [] /\
   Base64.forgiving_base64_decode (base64String T) = None /\
   e = InvalidEncodingError).
Proof.
  intros H. destruct (base64String T) as [|c r] eqn:Es.
  - left. split; [reflexivity|].
    unfold convertTextToZipBlob in H.
    rewrite (convert_empty _ _ Es) in H. now inversion H.
  - right. split; [discriminate|].
    assert (Hne : base64String T <> []) by (rewrite Es; discriminate).
    destruct (Base64.forgiving_base64_decode (base64String T)) as [s|] eqn:Ed.
    + rewrite (convert_decoded _ _ Hne Ed) in H. discriminate.
    + rewrite (convert_invalid _ Hne Ed) in H. rewrite <- Es.
      split; [assumption|now inversion H].
Qed.

Variable toLowerCase : jsstring -> jsstring.
Variable platform_message : exn -> string.

(** The run of [processFile] when reading and converting succeed. *)
Lemma processFile_ok (file : File) (now : N) (s : State * Dom)
    (text : jsstring) (blob : Blob) :
  readFileAsText file = Ok text ->
  convertTextToZipBlob text = Ok blob ->
  exists files,
    getZipFileList blob = Ok files /\
    processFile toLowerCase platform_message (Some file) now s
    = setStatus SUCCESS [] files
        (mkState PROCESSING (Some blob) (number_to_string now ++ lit ".zip"),
         snd (setStatus PROCESSING (displayFileName toLowerCase file) [] s)).
Proof.
  intros Hread Hconv.
  destruct (scan_try_total blob) as [files Hscan].
  apply scan_caught in Hscan. exists files. split; [assumption|].
  unfold processFile. rewrite Hread. cbn [bind].
  rewrite Hconv. cbn [bind]. rewrite Hscan. cbn [bind].
  rewrite setStatus_status. reflexivity.
Qed.

(** The run of [processFile] when one of them fails. *)
Lemma processFile_failed (file : File) (now : N) (s : State * Dom)
    (m : string) :
  m <> EmptyString ->
  readFileAsText file = Throw (Error m) \/
  (exists text, readFileAsText file = Ok text /\
                convertTextToZipBlob text = Throw (Error m)) ->
  processFile toLowerCase platform_message (Some file) now s
  = setStatus ERROR (lit m) []
      (setStatus PROCESSING (displayFileName toLowerCase file) [] s).
Proof.
  intros Hm H. unfold processFile.
  destruct H as [Hread|(text & Hread & Hconv)].
  - rewrite Hread. cbn [bind message].
    destruct m; [congruence|reflexivity].
  - rewrite Hread. cbn [bind]. rewrite Hconv. cbn [bind message].
    destruct m; [congruence|reflexivity].
Qed.

(** Every file is in one of the two cases. *)
Lemma read_convert_cases (file : File) :
  (exists text blob,
     readFileAsText file = Ok text /\ convertTextToZipBlob text = Ok blob)
  \/
  (exists m,
     m <> EmptyString /\
     (readFileAsText file = Throw (Error m) \/
      exists text, readFileAsText file = Ok text /\
                   convertTextToZipBlob text = Throw (Error m))).
Proof.
  destruct (readFileAsText file) as [text|e] eqn:Hread.
  - destruct (convertTextToZipBlob text) as [blob|e] eqn:Hconv.
    + left. eauto.
    + right. destruct (convert_error _ _ Hconv) as [[_ ->]|(_ & _ & ->)].
      * eexists. split; [|right; eauto]. discriminate.
      * eexists. split; [|right; eauto]. discriminate.
  - right. unfold readFileAsText in Hread.
    destruct (file_read file) as [[r|]|].
    + destruct (is_falsy r); [|discriminate]. inversion Hread.
      eexists. split; [|left; reflexivity]. discriminate.
    + inversion Hread. eexists. split; [|left; reflexivity]. discriminate.
    + inversion Hread. eexists. split; [|left; reflexivity]. discriminate.
Qed.
End ScriptFacts.

Section PipelineFacts.
Import JSPrim.

Lemma read_text (file : File) (text : jsstring) :
  file_read file = onload (Some text) -> text <> [] ->
  readFileAsText file = Ok text.
Proof.
  intros Hr Hne. unfold readFileAsText. rewrite Hr.
  destruct text; [congruence|reflexivity].
Qed.

Lemma read_text_inv (file : File) (text : jsstring) :
  readFileAsText file = Ok text ->
  file_read file = onload (Some text) /\ text <> [].
Proof.
  unfold readFileAsText. destruct (file_read file) as [[r|]|];
    try discriminate.
  destruct r as [|c r]; simpl; [discriminate|].
  intros H. inversion H. split; [reflexivity|discriminate].
Qed.

Lemma base64String_nil : base64String [] = [].
Proof. reflexivity. Qed.

Lemma convert_ok_iff (text : jsstring) :
  (exists blob, convertTextToZipBlob text = Ok blob) <->
  base64String text <> [] /\
  Base64.forgiving_base64_decode (base64String text) <> None.
Proof.
  split.
  - intros [blob Hok].
    destruct (base64String text) as [|c r] eqn:Es.
    + unfold convertTextToZipBlob in Hok.
      rewrite (convert_empty _ _ Es) in Hok. discriminate.
    + split; [discriminate|]. intros Ed. rewrite <- Es in Ed.
      rewrite (convert_invalid text) in Hok; try assumption;
        [discriminate|rewrite Es; discriminate].
  - intros [Hne Hd].
    destruct (Base64.forgiving_base64_decode (base64String text))
      as [s|] eqn:Ed; [|congruence].
    eexists. apply (convert_decoded _ _ Hne Ed).
Qed.

(** The converter gives back the bytes of an encoding stored in reversed
    lines. *)
Lemma convert_encoded (B : list byte) (pieces : list jsstring)
    (T : jsstring) :
  B <> [] ->
  concat pieces = Base64.base64_encode B ->
  joined_lines (rev pieces) T ->
  T <> [] /\ convertTextToZipBlob T = Ok (mkBlob B "application/zip").
Proof.
  intros HB Hcat Hjoin.
  pose proof (base64String_joined _ _ _ Hcat Hjoin) as Hs.
  pose proof (base64_encode_nonempty _ HB) as Hne.
  split.
  - intros ->. rewrite base64String_nil in Hs. congruence.
  - rewrite (convert_decoded T (map Byte.to_N B)).
    + now rewrite to_uint8_bytes.
    + now rewrite Hs.
    + rewrite Hs. apply forgiving_decode_encode.
Qed.
End PipelineFacts.

(** X7: [processFile] of the page script ends in the success state exactly
    when the file was read to a text whose stripped string is not empty
    and is accepted by the decoder, and in the error state otherwise; the
    content of the decoded bytes plays no role. *)
Theorem script_processFile_status (toLowerCase : jsstring -> jsstring)
    (platform_message : exn -> string) (file : File) (now : N)
    (s : ScriptJs.State * ScriptJs.Dom) :
  let s' :=
    ScriptJs.processFile toLowerCase platform_message (Some file) now s in
  let convertible :=
    exists text,
      file_read file = onload (Some text) /\
      base64String text <> [] /\
      Base64.forgiving_base64_decode (base64String text) <> None in
  (ScriptJs.status (fst s') = ScriptJs.SUCCESS <-> convertible) /\
  (ScriptJs.status (fst s') = ScriptJs.ERROR <-> ~ convertible).
Proof.
  intros s' convertible.
  assert (Hconv : convertible <->
            exists text blob, readFileAsText file = Ok text /\
                              convertTextToZipBlob text = Ok blob).
  { unfold convertible. split.
    - intros (text & Hr & Hne & Hd).
      destruct (proj2 (convert_ok_iff text) (conj Hne Hd)) as [blob Hok].
      exists text, blob. split; [|assumption].
      apply read_text; [assumption|].
      intros ->. now rewrite base64String_nil in Hne.
    - intros (text & blob & Hr & Hok).
      apply read_text_inv in Hr. destruct Hr as [Hr _].
      exists text. split; [assumption|].
      apply convert_ok_iff. eauto. }
  destruct (read_convert_cases file)
    as [(text & blob & Hr & Hok)|(m & Hm & Hfail)].
  - destruct (processFile_ok toLowerCase platform_message file now s
                text blob Hr Hok) as (files & _ & Hrun).
    assert (Hst : ScriptJs.status (fst s') = ScriptJs.SUCCESS)
      by (unfold s'; rewrite Hrun, setStatus_status; reflexivity).
    assert (Hc : convertible) by (apply Hconv; eauto).
    rewrite Hst. split; split; try tauto; try discriminate.
  - assert (Hst : ScriptJs.status (fst s') = ScriptJs.ERROR).
    { unfold s'.
      rewrite (processFile_failed toLowerCase platform_message file now s
                 m Hm Hfail), setStatus_status. reflexivity. }
    assert (Hc : ~ convertible).
    { intros Hc. apply Hconv in Hc.
      destruct Hc as (text & blob & Hr & Hok).
      destruct Hfail as [Hf|(text' & Hr' & Hf)].
      - congruence.
      - rewrite Hr in Hr'. inversion Hr'. subst text'. congruence. }
    rewrite Hst. split; split; try tauto; try discriminate.
Qed.

(** X8: after a successful run the state holds the blob of the converter
    and the name made of the time stamp and ".zip", the success panel lists
    the names the scanner finds in that blob (or one placeholder item when
    there is none) with their count, and the download button hands out
    this blob under this name. *)
Theorem script_processFile_success (toLowerCase : jsstring -> jsstring)
    (platform_message : exn -> string) (file : File) (now : N)
    (s : ScriptJs.State * ScriptJs.Dom) (text : jsstring) (blob : Blob) :
  file_read file = onload (Some text) ->
  convertTextToZipBlob text = Ok blob ->
  let s' :=
    ScriptJs.processFile toLowerCase platform_message (Some file) now s in
  let name := JSPrim.number_to_string now ++ lit ".zip" in
  exists files,
    getZipFileList blob = Ok files /\
    fst s' = ScriptJs.mkState ScriptJs.SUCCESS (Some blob) name /\
    ScriptJs.fileListContainer (snd s') = rendered_files files /\
    ScriptJs.successFileCount (snd s')
    = ScriptJs.found_text (length files) /\
    ScriptJs.downloadBtn_click s' = [downloadBlob blob name].
Proof.
  intros Hr Hok s' name.
  assert (Hne : text <> []).
  { intros ->. discriminate Hok. }
  destruct (processFile_ok toLowerCase platform_message file now s
              text blob (read_text _ _ Hr Hne) Hok) as (files & Hscan & Hrun).
  exists files. split; [assumption|].
  unfold s'. rewrite Hrun.
  destruct (setStatus_success_list files
              (ScriptJs.mkState ScriptJs.PROCESSING (Some blob) name,
               snd (ScriptJs.setStatus ScriptJs.PROCESSING
                      (ScriptJs.displayFileName toLowerCase file) [] s)))
    as [Hlist Hcount].
  split; [now rewrite setStatus_status|].
  split; [exact Hlist|]. split; [exact Hcount|].
  unfold ScriptJs.downloadBtn_click. rewrite setStatus_status.
  cbn [fst snd ScriptJs.generatedBlob ScriptJs.outputFileName].
  unfold name. now rewrite number_file_name.
Qed.

(** The two lines "QUJD" and "RkdI" at time 1700000000000. *)
Lemma script_processFile_success_witness :
  exists files,
    getZipFileList (mkBlob (list_byte_of_string "FGHABC") "application/zip")
    = Ok files /\
    fst (ScriptJs.processFile ascii_lower (fun _ => EmptyString)
           (Some (text_file (lit "QUJD" ++ [LF] ++ lit "RkdI")))
           1700000000000 (ScriptJs.initial_state, blank_dom))
    = ScriptJs.mkState ScriptJs.SUCCESS
        (Some (mkBlob (list_byte_of_string "FGHABC") "application/zip"))
        (lit "1700000000000.zip").
Proof.
  destruct (script_processFile_success ascii_lower (fun _ => EmptyString)
              (text_file (lit "QUJD" ++ [LF] ++ lit "RkdI")) 1700000000000
              (ScriptJs.initial_state, blank_dom)
              (lit "QUJD" ++ [LF] ++ lit "RkdI")
              (mkBlob (list_byte_of_string "FGHABC") "application/zip")
              eq_refl eq_refl)
    as (files & Hscan & Hst & _).
  exists files. split; [exact Hscan|exact Hst].
Defined.

(** X9: the message of the error panel.  A file that cannot be read gives
    "File reading error"; a file read to nothing, the empty file among
    them, gives "Failed to read file content"; a text of whitespace only
    gives "Resulting string is empty."; a text the decoder rejects gives
    the invalid-content message.  The fallback message is never shown. *)
Theorem script_processFile_error_message
    (toLowerCase : jsstring -> jsstring) (platform_message : exn -> string)
    (file : File) (now : N) (s : ScriptJs.State * ScriptJs.Dom) :
  let s' :=
    ScriptJs.processFile toLowerCase platform_message (Some file) now s in
  let fails_with (m : string) :=
    ScriptJs.status (fst s') = ScriptJs.ERROR /\
    ScriptJs.errorMsg (snd s') = lit m in
  (file_read file = onerror -> fails_with "File reading error"%string) /\
  (file_read file = onload None \/ file_read file = onload (Some []) ->
   fails_with "Failed to read file content"%string) /\
  (forall text,
     file_read file = onload (Some text) -> text <> [] ->
     base64String text = [] ->
     fails_with "Resulting string is empty."%string) /\
  (forall text,
     file_read file = onload (Some text) ->
     base64String text <> [] ->
     Base64.forgiving_base64_decode (base64String text) = None ->
     fails_with
       "Invalid Base64 content. Please ensure the file contains valid Base64 parts."%string)
  /\
  (ScriptJs.status (fst s') = ScriptJs.ERROR ->
   ScriptJs.errorMsg (snd s') <> lit "An unexpected error occurred.").
Proof.
  intros s' fails_with.
  assert (Hrun : forall m, m <> EmptyString ->
            (readFileAsText file = Throw (Error m) \/
             exists text, readFileAsText file = Ok text /\
                          convertTextToZipBlob text = Throw (Error m)) ->
            fails_with m).
  { intros m Hm Hfail. unfold fails_with, s'.
    rewrite (processFile_failed toLowerCase platform_message file now s
               m Hm Hfail).
    destruct (ScriptJs.setStatus ScriptJs.PROCESSING _ [] s) as [st d].
    split; reflexivity. }
  split; [|split; [|split; [|split]]].
  - intros Hr. apply Hrun; [discriminate|]. left.
    unfold readFileAsText. now rewrite Hr.
  - intros Hr. apply Hrun; [discriminate|]. left.
    unfold readFileAsText. destruct Hr as [-> | ->]; reflexivity.
  - intros text Hr Hne Hs. apply Hrun; [discriminate|]. right.
    exists text. split; [now apply read_text|].
    apply (convert_empty Base64.atob text Hs).
  - intros text Hr Hne Hd. apply Hrun; [discriminate|]. right.
    exists text. split; [|now apply convert_invalid].
    apply read_text; [assumption|].
    intros ->. now rewrite base64String_nil in Hne.
  - intros Hst.
    destruct (read_convert_cases file)
      as [(text & blob & Hr & Hok)|(m & Hm & Hfail)].
    + destruct (processFile_ok toLowerCase platform_message file now s
                  text blob Hr Hok) as (files & _ & Hp).
      unfold s' in Hst. rewrite Hp, setStatus_status in Hst. discriminate.
    + destruct (Hrun m Hm Hfail) as [_ Hmsg]. rewrite Hmsg.
      assert (Hcases : m = "File reading error"%string \/
                       m = "Failed to read file content"%string \/
                       Error m = EmptyInputError \/
                       Error m = InvalidEncodingError).
      { destruct Hfail as [Hf|(text & _ & Hf)].
        - unfold readFileAsText in Hf.
          destruct (file_read file) as [[r|]|].
          + destruct (is_falsy r); [|discriminate].
            inversion Hf. auto.
          + inversion Hf. auto.
          + inversion Hf. auto.
        - destruct (convert_error _ _ Hf) as [[_ E]|(_ & _ & E)]; auto. }
      destruct Hcases as [-> |[-> |[E|E]]];
        try (inversion E; subst m); discriminate.
Qed.

(** The empty file. *)
Lemma script_processFile_error_message_witness :
  ScriptJs.errorMsg
    (snd (ScriptJs.processFile ascii_lower (fun _ => EmptyString)
            (Some (mkFile (lit "empty.txt") (onload (Some []))))
            1700000000000 (ScriptJs.initial_state, blank_dom)))
  = lit "Failed to read file content".
Proof.
  destruct (script_processFile_error_message ascii_lower
              (fun _ => EmptyString)
              (mkFile (lit "empty.txt") (onload (Some [])))
              1700000000000 (ScriptJs.initial_state, blank_dom))
    as (_ & H & _).
  destruct H as [_ Hmsg]; [right; reflexivity|exact Hmsg].
Defined.

(** X10: the whole way back.  When the bytes [B], not empty, were encoded,
    cut into lines and stored in reversed order in a file, processing the
    file succeeds and the download button hands out exactly [B], as a ZIP
    blob named by the time stamp. *)
Theorem script_round_trip (toLowerCase : jsstring -> jsstring)
    (platform_message : exn -> string) (B : list byte)
    (pieces : list jsstring) (file : File) (T : jsstring) (now : N)
    (s : ScriptJs.State * ScriptJs.Dom) :
  B <> [] ->
  concat pieces = Base64.base64_encode B ->
  joined_lines (rev pieces) T ->
  file_read file = onload (Some T) ->
  let s' :=
    ScriptJs.processFile toLowerCase platform_message (Some file) now s in
  ScriptJs.status (fst s') = ScriptJs.SUCCESS /\
  ScriptJs.downloadBtn_click s'
  = [downloadBlob (mkBlob B "application/zip")
       (JSPrim.number_to_string now ++ lit ".zip")].
Proof.
  intros HB Hcat Hjoin Hr s'.
  destruct (convert_encoded B pieces T HB Hcat Hjoin) as [Hne Hok].
  destruct (processFile_ok toLowerCase platform_message file now s T _
              (read_text _ _ Hr Hne) Hok) as (files & _ & Hrun).
  unfold s'. rewrite Hrun.
  split; [now rewrite setStatus_status|].
  unfold ScriptJs.downloadBtn_click. rewrite setStatus_status.
  cbn [fst snd ScriptJs.generatedBlob ScriptJs.outputFileName].
  now rewrite number_file_name.
Qed.

Lemma script_round_trip_witness :
  ScriptJs.downloadBtn_click
    (ScriptJs.processFile ascii_lower (fun _ => EmptyString)
       (Some (text_file (lit "QUJD" ++ [LF] ++ lit "RkdI")))
       1700000000000 (ScriptJs.initial_state, blank_dom))
  = [downloadBlob (mkBlob (list_byte_of_string "FGHABC") "application/zip")
       (JSPrim.number_to_string 1700000000000 ++ lit ".zip")].
Proof.
  refine (proj2 (script_round_trip ascii_lower (fun _ => EmptyString)
                   (list_byte_of_string "FGHABC")
                   [lit "RkdI"; lit "QUJD"]
                   (text_file (lit "QUJD" ++ [LF] ++ lit "RkdI"))
                   (lit "QUJD" ++ [LF] ++ lit "RkdI")
                   1700000000000 (ScriptJs.initial_state, blank_dom)
                   _ _ _ _)).
  - discriminate.
  - reflexivity.
  - apply (joined_more (lit "QUJD") [LF] [lit "RkdI"] (lit "RkdI"));
      constructor.
  - reflexivity.
Defined.

(** ** The component *)

Section ConverterFacts.
Import JSPrim.

Variable toLowerCase : jsstring -> jsstring.
Variable platform_message : exn -> string.

Lemma component_processFile_ok (file : File) (now : N)
    (c : Converter.State) (text : jsstring) (blob : Blob)
    (files : list jsstring) :
  readFileAsText file = Ok text ->
  convertTextToZipBlob text = Ok blob ->
  getZipFileList blob = Ok files ->
  Converter.processFile toLowerCase platform_message (Some file) now c
  = Converter.mkState Converter.SUCCESS
      (Converter.displayFileName toLowerCase file) []
      (Converter.dragActive c) files (Some blob)
      (number_to_string now ++ lit ".zip").
Proof.
  intros Hread Hconv Hscan. unfold Converter.processFile.
  rewrite Hread. cbn [bind]. rewrite Hconv. cbn [bind].
  rewrite Hscan. reflexivity.
Qed.

Lemma component_processFile_failed (file : File) (now : N)
    (c : Converter.State) (m : string) :
  m <> EmptyString ->
  readFileAsText file = Throw (Error m) \/
  (exists text, readFileAsText file = Ok text /\
                convertTextToZipBlob text = Throw (Error m)) ->
  Converter.processFile toLowerCase platform_message (Some file) now c
  = Converter.mkState Converter.ERROR
      (Converter.displayFileName toLowerCase file) (lit m)
      (Converter.dragActive c) [] None (Converter.outputFileName c).
Proof.
  intros Hm H. unfold Converter.processFile.
  destruct H as [Hread|(text & Hread & Hconv)].
  - rewrite Hread. cbn [bind message].
    destruct m; [congruence|reflexivity].
  - rewrite Hread. cbn [bind]. rewrite Hconv. cbn [bind message].
    destruct m; [congruence|reflexivity].
Qed.

Lemma setStatus_processing_name (m : jsstring)
    (s : ScriptJs.State * ScriptJs.Dom) :
  ScriptJs.processingFileName
    (snd (ScriptJs.setStatus ScriptJs.PROCESSING m [] s)) = m.
Proof. now destruct s. Qed.

Lemma setStatus_keeps_name (newStatus : ScriptJs.Status) (m : jsstring)
    (files : list jsstring) (s : ScriptJs.State * ScriptJs.Dom) :
  newStatus <> ScriptJs.PROCESSING ->
  ScriptJs.processingFileName (snd (ScriptJs.setStatus newStatus m files s))
  = ScriptJs.processingFileName (snd s).
Proof. destruct s. now destruct newStatus. Qed.

Lemma setStatus_error_message (m : jsstring)
    (s : ScriptJs.State * ScriptJs.Dom) :
  ScriptJs.errorMsg (snd (ScriptJs.setStatus ScriptJs.ERROR m [] s)) = m.
Proof. now destruct s. Qed.
End ConverterFacts.

(** X11: the component and the page script agree.  On the same file at the
    same time, from any states, [processFile] of the one and of the other
    end in the same status with the same displayed file name; on success
    with the same blob, the same output name, the same list and the same
    download; on error with the same message. *)
Theorem component_agrees_with_script (toLowerCase : jsstring -> jsstring)
    (platform_message : exn -> string) (file : File) (now : N)
    (s : ScriptJs.State * ScriptJs.Dom) (c : Converter.State) :
  let s' :=
    ScriptJs.processFile toLowerCase platform_message (Some file) now s in
  let c' :=
    Converter.processFile toLowerCase platform_message (Some file) now c in
  script_status (Converter.status c') = ScriptJs.status (fst s') /\
  Converter.fileName c' = ScriptJs.processingFileName (snd s') /\
  (Converter.status c' = Converter.SUCCESS ->
   Converter.generatedBlob c' = ScriptJs.generatedBlob (fst s') /\
   Converter.outputFileName c' = ScriptJs.outputFileName (fst s') /\
   rendered_files (Converter.previewFiles c')
   = ScriptJs.fileListContainer (snd s') /\
   Converter.handleDownload c' = ScriptJs.downloadBtn_click s') /\
  (Converter.status c' = Converter.ERROR ->
   Converter.errorMsg c' = ScriptJs.errorMsg (snd s')).
Proof.
  intros s' c'.
  destruct (read_convert_cases file)
    as [(text & blob & Hr & Hok)|(m & Hm & Hfail)].
  - destruct (processFile_ok toLowerCase platform_message file now s
                text blob Hr Hok) as (files & Hscan & Hs).
    pose proof (component_processFile_ok toLowerCase platform_message
                  file now c text blob files Hr Hok Hscan) as Hc.
    destruct (setStatus_success_list files
                (ScriptJs.mkState ScriptJs.PROCESSING (Some blob)
                   (JSPrim.number_to_string now ++ lit ".zip"),
                 snd (ScriptJs.setStatus ScriptJs.PROCESSING
                        (ScriptJs.displayFileName toLowerCase file) [] s)))
      as [Hlist _].
    unfold s', c'. rewrite Hs, Hc.
    split; [now rewrite setStatus_status|].
    split.
    { rewrite setStatus_keeps_name by discriminate.
      cbn [snd]. now rewrite setStatus_processing_name. }
    split; [|discriminate].
    intros _. rewrite Hlist.
    unfold Converter.handleDownload, ScriptJs.downloadBtn_click.
    rewrite setStatus_status.
    cbn [fst snd ScriptJs.generatedBlob ScriptJs.outputFileName
         Converter.generatedBlob Converter.outputFileName
         Converter.previewFiles].
    repeat split.
  - pose proof (processFile_failed toLowerCase platform_message file now s
                  m Hm Hfail) as Hs.
    pose proof (component_processFile_failed toLowerCase platform_message
                  file now c m Hm Hfail) as Hc.
    unfold s', c'. rewrite Hs, Hc.
    split; [now rewrite setStatus_status|].
    split.
    { rewrite setStatus_keeps_name by discriminate.
      now rewrite setStatus_processing_name. }
    split; [discriminate|].
    intros _. now rewrite setStatus_error_message.
Qed.

(** The two lines "QUJD" and "RkdI" in both. *)
Lemma component_agrees_with_script_witness :
  Converter.generatedBlob
    (Converter.processFile ascii_lower (fun _ => EmptyString)
       (Some (text_file (lit "QUJD" ++ [LF] ++ lit "RkdI")))
       1700000000000
       (Converter.mkState Converter.IDLE [] [] false [] None []))
  = ScriptJs.generatedBlob
      (fst (ScriptJs.processFile ascii_lower (fun _ => EmptyString)
              (Some (text_file (lit "QUJD" ++ [LF] ++ lit "RkdI")))
              1700000000000 (ScriptJs.initial_state, blank_dom))).
Proof.
  destruct (component_agrees_with_script ascii_lower (fun _ => EmptyString)
              (text_file (lit "QUJD" ++ [LF] ++ lit "RkdI")) 1700000000000
              (ScriptJs.initial_state, blank_dom)
              (Converter.mkState Converter.IDLE [] [] false [] None []))
    as (_ & _ & H & _).
  destruct H as [Hblob _]; [reflexivity|exact Hblob].
Defined.

(** ** Conversions that overlap *)

Section SegmentFacts.
Import JSPrim.

Variable toLowerCase : jsstring -> jsstring.
Variable platform_message : exn -> string.

Lemma convertible_read_convert (file : File) :
  convertible file <->
  exists text blob,
    readFileAsText file = Ok text /\ convertTextToZipBlob text = Ok blob.
Proof.
  unfold convertible. split.
  - intros (text & Hr & Hne & Hd).
    destruct (proj2 (convert_ok_iff text) (conj Hne Hd)) as [blob Hok].
    exists text, blob. split; [|assumption].
    apply read_text; [assumption|].
    intros ->. now rewrite base64String_nil in Hne.
  - intros (text & blob & Hr & Hok).
    apply read_text_inv in Hr. destruct Hr as [Hr _].
    exists text. split; [assumption|].
    apply convert_ok_iff. eauto.
Qed.

(** How a conversion that cannot succeed fails. *)
Lemma not_convertible_fails (file : File) :
  ~ convertible file ->
  exists m,
    m <> EmptyString /\
    (readFileAsText file = Throw (Error m) \/
     exists text, readFileAsText file = Ok text /\
                  convertTextToZipBlob text = Throw (Error m)).
Proof.
  intros Hno.
  destruct (read_convert_cases file) as [(text & blob & Hr & Hok)|H];
    [|exact H].
  exfalso. apply Hno. apply convertible_read_convert. eauto.
Qed.

(** [processFile] is its two segments, one after the other. *)
Lemma script_processFile_segments (file : File) (now : N)
    (s : ScriptJs.State * ScriptJs.Dom) :
  ScriptJs.processFile toLowerCase platform_message (Some file) now s
  = ScriptAsync.processFile_settle platform_message file now
      (ScriptAsync.processFile_start toLowerCase file s).
Proof. reflexivity. Qed.

Lemma component_processFile_segments (file : File) (now : N)
    (c : Converter.State) :
  Converter.processFile toLowerCase platform_message (Some file) now c
  = ConverterAsync.processFile_settle platform_message file now
      (ConverterAsync.processFile_start toLowerCase file c).
Proof. reflexivity. Qed.

Lemma component_handleDrop_segments (file : File) (now : N)
    (c : Converter.State) :
  Converter.handleDrop toLowerCase platform_message (Some file) now c
  = ConverterAsync.processFile_settle platform_message file now
      (ConverterAsync.handleDrop_start toLowerCase file c).
Proof. reflexivity. Qed.

Lemma component_settle_failed (file : File) (now : N)
    (c : Converter.State) :
  ~ convertible file ->
  exists m,
    ConverterAsync.processFile_settle platform_message file now c
    = Converter.mkState Converter.ERROR (Converter.fileName c) (lit m)
        (Converter.dragActive c) (Converter.previewFiles c)
        (Converter.generatedBlob c) (Converter.outputFileName c).
Proof.
  intros Hno. destruct (not_convertible_fails file Hno) as (m & Hm & H).
  exists m. unfold ConverterAsync.processFile_settle.
  destruct H as [Hread|(text & Hread & Hconv)].
  - rewrite Hread. cbn [bind message].
    destruct m; [congruence|reflexivity].
  - rewrite Hread. cbn [bind]. rewrite Hconv. cbn [bind message].
    destruct m; [congruence|reflexivity].
Qed.

Lemma component_settle_ok (file : File) (now : N) (c : Converter.State)
    (text : jsstring) (blob : Blob) :
  file_read file = onload (Some text) ->
  convertTextToZipBlob text = Ok blob ->
  exists files,
    ConverterAsync.processFile_settle platform_message file now c
    = Converter.mkState Converter.SUCCESS (Converter.fileName c)
        (Converter.errorMsg c) (Converter.dragActive c) files (Some blob)
        (number_to_string now ++ lit ".zip").
Proof.
  intros Hr Hok.
  assert (Hne : text <> []) by (intros ->; discriminate Hok).
  destruct (scan_try_total blob) as [files Hscan].
  apply scan_caught in Hscan. exists files.
  unfold ConverterAsync.processFile_settle.
  rewrite (read_text _ _ Hr Hne). cbn [bind]. rewrite Hok. cbn [bind].
  rewrite Hscan. reflexivity.
Qed.

Lemma script_settle_failed (file : File) (now : N)
    (s : ScriptJs.State * ScriptJs.Dom) :
  ~ convertible file ->
  exists m,
    ScriptAsync.processFile_settle platform_message file now s
    = ScriptJs.setStatus ScriptJs.ERROR (lit m) [] s.
Proof.
  intros Hno. destruct (not_convertible_fails file Hno) as (m & Hm & H).
  exists m. unfold ScriptAsync.processFile_settle.
  destruct H as [Hread|(text & Hread & Hconv)].
  - rewrite Hread. cbn [bind message].
    destruct m; [congruence|reflexivity].
  - rewrite Hread. cbn [bind]. rewrite Hconv. cbn [bind message].
    destruct m; [congruence|reflexivity].
Qed.
End SegmentFacts.

(** X12: what is left of an earlier result.  When a conversion fails, the
    segment that completes it changes the status and the message only: in
    the component and in the page script the blob, the output name and the
    download are left as they are at that moment.  In the component the
    drop handler clears them before the conversion starts, so a failed
    conversion with nothing in between leaves no blob; but when the file
    is dropped while an earlier conversion is pending and that one
    succeeds first, the component ends in the error state with the blob of
    the earlier conversion, which the download handler hands out. *)
Theorem earlier_result_after_failure (toLowerCase : jsstring -> jsstring)
    (platform_message : exn -> string) (file1 file2 : File)
    (now1 now2 : N) (text1 : jsstring) (blob1 : Blob)
    (c mid : Converter.State) (smid : ScriptJs.State * ScriptJs.Dom) :
  file_read file1 = onload (Some text1) ->
  convertTextToZipBlob text1 = Ok blob1 ->
  ~ convertible file2 ->
  let settle := ConverterAsync.processFile_settle platform_message in
  let drop := ConverterAsync.handleDrop_start toLowerCase in
  (let c' := settle file2 now2 mid in
   Converter.status c' = Converter.ERROR /\
   Converter.generatedBlob c' = Converter.generatedBlob mid /\
   Converter.outputFileName c' = Converter.outputFileName mid /\
   Converter.previewFiles c' = Converter.previewFiles mid /\
   Converter.handleDownload c' = Converter.handleDownload mid) /\
  (let s' :=
     ScriptAsync.processFile_settle platform_message file2 now2 smid in
   ScriptJs.status (fst s') = ScriptJs.ERROR /\
   ScriptJs.generatedBlob (fst s') = ScriptJs.generatedBlob (fst smid) /\
   ScriptJs.outputFileName (fst s') = ScriptJs.outputFileName (fst smid) /\
   ScriptJs.downloadBtn_click s' = ScriptJs.downloadBtn_click smid) /\
  (let c' :=
     Converter.handleDrop toLowerCase platform_message (Some file2) now2 c in
   c' = settle file2 now2 (drop file2 c) /\
   Converter.status c' = Converter.ERROR /\
   Converter.generatedBlob c' = None /\
   Converter.handleDownload c' = []) /\
  (let c' :=
     settle file2 now2 (settle file1 now1 (drop file2 (drop file1 c))) in
   Converter.status c' = Converter.ERROR /\
   Converter.generatedBlob c' = Some blob1 /\
   Converter.handleDownload c'
   = [downloadBlob blob1 (JSPrim.number_to_string now1 ++ lit ".zip")]).
Proof.
  intros Hr1 Hok1 Hno settle drop.
  assert (Hfail : forall m0 : Converter.State,
            Converter.status (settle file2 now2 m0) = Converter.ERROR /\
            Converter.generatedBlob (settle file2 now2 m0)
            = Converter.generatedBlob m0 /\
            Converter.outputFileName (settle file2 now2 m0)
            = Converter.outputFileName m0 /\
            Converter.previewFiles (settle file2 now2 m0)
            = Converter.previewFiles m0 /\
            Converter.handleDownload (settle file2 now2 m0)
            = Converter.handleDownload m0).
  { intros m0. unfold settle.
    destruct (component_settle_failed platform_message file2 now2 m0 Hno)
      as [m ->].
    repeat split. }
  split; [apply Hfail|]. split; [|split].
  - destruct (script_settle_failed platform_message file2 now2 smid Hno)
      as [m Hs].
    cbv zeta. rewrite Hs. unfold ScriptJs.downloadBtn_click.
    rewrite setStatus_status. repeat split.
  - cbv zeta. rewrite component_handleDrop_segments. fold settle. fold drop.
    destruct (Hfail (drop file2 c)) as (Hst & Hb & _ & _ & Hd).
    split; [reflexivity|]. split; [exact Hst|].
    split; [rewrite Hb; reflexivity|rewrite Hd; reflexivity].
  - cbv zeta.
    destruct (Hfail (settle file1 now1 (drop file2 (drop file1 c))))
      as (Hst & Hb & _ & _ & Hd).
    destruct (component_settle_ok platform_message file1 now1
                (drop file2 (drop file1 c)) text1 blob1 Hr1 Hok1)
      as [files Hs1].
    split; [exact Hst|]. fold settle in Hs1.
    split; [rewrite Hb, Hs1; reflexivity|].
    rewrite Hd, Hs1. unfold Converter.handleDownload.
    cbn [Converter.generatedBlob Converter.outputFileName].
    now rewrite number_file_name.
Qed.

(** The lines "QUJD" and "RkdI" are dropped, then an empty file while the
    first conversion is pending; the first completes, then the second. *)
Lemma earlier_result_after_failure_witness :
  let settle := ConverterAsync.processFile_settle (fun _ => EmptyString) in
  let drop := ConverterAsync.handleDrop_start ascii_lower in
  let good := text_file (lit "QUJD" ++ [LF] ++ lit "RkdI") in
  let empty := mkFile (lit "empty.txt") (onload (Some [])) in
  let c := Converter.mkState Converter.IDLE [] [] false [] None [] in
  let c' :=
    settle empty 1700000000700%N
      (settle good 1700000000600%N (drop empty (drop good c))) in
  Converter.status c' = Converter.ERROR /\
  Converter.generatedBlob c'
  = Some (mkBlob (list_byte_of_string "FGHABC") "application/zip").
Proof.
  intros settle drop good empty c c'.
  destruct (earlier_result_after_failure ascii_lower (fun _ => EmptyString)
              good empty 1700000000600%N 1700000000700%N
              (lit "QUJD" ++ [LF] ++ lit "RkdI")
              (mkBlob (list_byte_of_string "FGHABC") "application/zip")
              c c (ScriptJs.initial_state, blank_dom))
    as (_ & _ & _ & Hst & Hblob & _).
  - reflexivity.
  - reflexivity.
  - intros (text & Hr & Hne & _). inversion Hr. subst text.
    apply Hne. reflexivity.
  - split; [exact Hst|exact Hblob].
Defined.

(** ** The page follows the status *)

Section ConsistencyFacts.
Import ScriptJs.

Lemma with_dropZone_consistent (f : DOMTokenList.t -> DOMTokenList.t)
    (s : State * Dom) :
  (forall token c,
     In token ["cursor-pointer"; "border-green-200"; "border-red-200"]%string
     -> DOMTokenList.contains token (f c) = DOMTokenList.contains token c) ->
  ui_consistent s ->
  ui_consistent (fst s, with_dropZone f (snd s)).
Proof.
  intros Hf (Hp & Hc & Hg & Hr). destruct s as [st d].
  unfold ui_consistent in *. cbn [fst snd with_dropZone dropZone] in *.
  split; [intros p; specialize (Hp p); now destruct p|].
  rewrite !Hf by (simpl; auto). auto.
Qed.

Lemma drag_classes_apart (token : string) :
  In token ["cursor-pointer"; "border-green-200"; "border-red-200"]%string ->
  existsb (String.eqb token) drag_classes = false.
Proof. intros [<-|[<-|[<-|[]]]]; reflexivity. Qed.
End ConsistencyFacts.

(** X13: the page shows the status.  After [setStatus], after [reset] and
    after [processFile] of a file, exactly the panel of [state.status] is
    shown, the drop zone has the pointer cursor in the idle state only,
    the green border on success only and the red border on error only; and
    the drag and drop listeners keep it so. *)
Theorem script_ui_consistent (toLowerCase : jsstring -> jsstring)
    (platform_message : exn -> string)
    (s : ScriptJs.State * ScriptJs.Dom) :
  (forall newStatus message files,
     ui_consistent (ScriptJs.setStatus newStatus message files s)) /\
  ui_consistent (ScriptJs.reset s) /\
  (forall file now,
     ui_consistent
       (ScriptJs.processFile toLowerCase platform_message (Some file) now s))
  /\
  (ui_consistent s ->
   ui_consistent (ScriptJs.dropZone_dragover s) /\
   ui_consistent (ScriptJs.dropZone_dragleave s) /\
   forall file now,
     ui_consistent
       (ScriptJs.dropZone_drop toLowerCase platform_message file now s) /\
     ui_consistent
       (ScriptJs.fileInput_change toLowerCase platform_message file now s)).
Proof.
  assert (Hprocess : forall file now s0,
            ui_consistent
              (ScriptJs.processFile toLowerCase platform_message
                 (Some file) now s0)).
  { intros file now s0. unfold ScriptJs.processFile.
    destruct (_ <- readFileAsText file ;; _) as [[zipBlob files]|err];
      apply setStatus_consistent. }
  split; [intros; apply setStatus_consistent|].
  split; [destruct s; apply setStatus_consistent|].
  split; [intros; apply Hprocess|].
  intros Hs.
  assert (Hover : ui_consistent
            (fst s, ScriptJs.with_dropZone
                      (DOMTokenList.add ScriptJs.drag_classes) (snd s))).
  { apply with_dropZone_consistent; [|assumption].
    intros token c Hin.
    now rewrite contains_add, (drag_classes_apart token Hin). }
  assert (Hleave : ui_consistent
            (fst s, ScriptJs.with_dropZone
                      (DOMTokenList.remove ScriptJs.drag_classes) (snd s))).
  { apply with_dropZone_consistent; [|assumption].
    intros token c Hin.
    now rewrite contains_remove, (drag_classes_apart token Hin). }
  split; [|split; [exact Hleave|]].
  - unfold ScriptJs.dropZone_dragover.
    destruct (ScriptJs.status (fst s)); assumption.
  - intros file now. split.
    + unfold ScriptJs.dropZone_drop.
      destruct file; [apply Hprocess|exact Hleave].
    + unfold ScriptJs.fileInput_change.
      destruct file; [apply Hprocess|exact Hs].
Qed.

(** Dragging a file over the page in its first state. *)
Lemma script_ui_consistent_witness :
  ui_consistent
    (ScriptJs.dropZone_dragover
       (ScriptJs.reset (ScriptJs.initial_state, blank_dom))).
Proof.
  destruct (script_ui_consistent ascii_lower (fun _ => EmptyString)
              (ScriptJs.reset (ScriptJs.initial_state, blank_dom)))
    as (_ & _ & _ & H).
  destruct H as [Hover _]; [|exact Hover].
  exact (proj1 (proj2 (script_ui_consistent ascii_lower
                         (fun _ => EmptyString)
                         (ScriptJs.initial_state, blank_dom)))).
Defined.

(** ** The router *)

Section RouterFacts.
Import JSPrim.
Local Open Scope N_scope.

Lemma str_eqb_eq (a b : jsstring) : str_eqb a b = true <-> a = b.
Proof.
  revert b. induction a as [|x a IH]; intros [|y b]; simpl.
  - split; reflexivity.
  - split; discriminate.
  - split; discriminate.
  - rewrite andb_true_iff, N.eqb_eq, IH. split.
    + intros [-> ->]. reflexivity.
    + intros H. inversion H. auto.
Qed.

Lemma startsWith_split (s prefix : jsstring) :
  startsWith s prefix = true -> s = prefix ++ skipn (length prefix) s.
Proof.
  revert s. induction prefix as [|p prefix IH]; intros s H; [reflexivity|].
  destruct s as [|c s]; [discriminate|].
  simpl in H. apply andb_true_iff in H. destruct H as [Hc Hs].
  apply N.eqb_eq in Hc. subst c. simpl. f_equal. now apply IH.
Qed.

(** [replace] leaves the string as it is or replaces one occurrence. *)
Lemma replace_cases (s pattern replacement : jsstring) :
  replace s pattern replacement = s \/
  exists a b,
    s = a ++ pattern ++ b /\
    replace s pattern replacement = a ++ replacement ++ b.
Proof.
  induction s as [|c s IH].
  - cbn [replace]. destruct (startsWith [] pattern) eqn:E; [|now left].
    right. exists [], (skipn (length pattern) []).
    split; [now apply startsWith_split|reflexivity].
  - cbn [replace]. destruct (startsWith (c :: s) pattern) eqn:E.
    + right. exists [], (skipn (length pattern) (c :: s)).
      split; [now apply startsWith_split|reflexivity].
    + destruct IH as [IH|(a & b & Hs & Hr)].
      * left. now rewrite IH.
      * right. exists (c :: a), b. split; simpl; congruence.
Qed.

(** A hash that is normalised to "#" and a tail without "#" is that
    string itself or the same with "#/" in front. *)
Lemma normalised_hash (hash tail : jsstring) :
  ~ In 35 tail ->
  replace hash (lit "#/") (lit "#") = 35 :: tail ->
  hash = 35 :: tail \/ hash = lit "#/" ++ tail.
Proof.
  intros Htail Hr.
  destruct (replace_cases hash (lit "#/") (lit "#"))
    as [Hsame|(a & b & Hs & Hrep)].
  - left. congruence.
  - rewrite Hrep in Hr. destruct a as [|c a].
    + right. simpl in Hr. inversion Hr. subst. reflexivity.
    + exfalso. simpl in Hr. inversion Hr as [[Hc Ha]].
      apply Htail. rewrite <- Ha. apply in_or_app. right. now left.
Qed.

Lemma route_tool_iff (hash : jsstring) :
  str_eqb (replace hash (lit "#/") (lit "#")) (lit "#base64") = true <->
  hash = lit "#base64" \/ hash = lit "#/base64".
Proof.
  rewrite str_eqb_eq. split.
  - intros H. apply (normalised_hash hash (lit "base64")); [|exact H].
    vm_compute. intuition discriminate.
  - intros [-> | ->]; reflexivity.
Qed.

Lemma route_aimo_iff (hash : jsstring) :
  str_eqb (replace hash (lit "#/") (lit "#")) (lit "#aimo") = true <->
  hash = lit "#aimo" \/ hash = lit "#/aimo".
Proof.
  rewrite str_eqb_eq. split.
  - intros H. apply (normalised_hash hash (lit "aimo")); [|exact H].
    vm_compute. intuition discriminate.
  - intros [-> | ->]; reflexivity.
Qed.

Lemma shown_views_route (home tool aimo : DOMTokenList.t)
    (h t a : bool) :
  let hide := DOMTokenList.add ["hidden"%string] in
  let reveal (b : bool) (c : DOMTokenList.t) :=
    if b then DOMTokenList.remove ["hidden"%string] (hide c) else hide c in
  shown_views
    (ScriptJs.mkViews (reveal h home) (reveal t tool) (reveal a aimo))
  = (h, t, a).
Proof.
  unfold shown_views. cbn [ScriptJs.viewHome ScriptJs.viewTool ScriptJs.viewAimo].
  destruct h, t, a; rewrite ?shown_hidden, ?shown_revealed; reflexivity.
Qed.

Lemma script_route_cases (hash : jsstring) (v : ScriptJs.Views) :
  (hash = lit "#/base64" /\
   shown_views (ScriptJs.handleRoute hash v) = (false, true, false)) \/
  (hash = lit "#/aimo" /\
   shown_views (ScriptJs.handleRoute hash v) = (false, false, true)) \/
  shown_views (ScriptJs.handleRoute hash v) = (true, false, false).
Proof.
  unfold ScriptJs.handleRoute.
  destruct (str_eqb hash (lit "#/base64")) eqn:E1.
  - left. apply str_eqb_eq in E1. split; [assumption|].
    apply (shown_views_route _ _ _ false true false).
  - destruct (str_eqb hash (lit "#/aimo")) eqn:E2.
    + right. left. apply str_eqb_eq in E2. split; [assumption|].
      apply (shown_views_route _ _ _ false false true).
    + right. right. apply (shown_views_route _ _ _ true false false).
Qed.
End RouterFacts.

(** X14: the router of the page script shows exactly one view, whatever
    classes the views had: the tool for the hash "#/base64", the dashboard
    for "#/aimo", the home view for every other hash. *)
Theorem script_route (hash : jsstring) (v : ScriptJs.Views) :
  (hash = lit "#/base64" ->
   shown_views (ScriptJs.handleRoute hash v) = (false, true, false)) /\
  (hash = lit "#/aimo" ->
   shown_views (ScriptJs.handleRoute hash v) = (false, false, true)) /\
  (hash <> lit "#/base64" -> hash <> lit "#/aimo" ->
   shown_views (ScriptJs.handleRoute hash v) = (true, false, false)).
Proof.
  split; [|split].
  - intros ->. apply (shown_views_route _ _ _ false true false).
  - intros ->. apply (shown_views_route _ _ _ false false true).
  - intros H1 H2. unfold ScriptJs.handleRoute.
    destruct (JSPrim.str_eqb hash (lit "#/base64")) eqn:E1;
      [apply str_eqb_eq in E1; congruence|].
    destruct (JSPrim.str_eqb hash (lit "#/aimo")) eqn:E2;
      [apply str_eqb_eq in E2; congruence|].
    apply (shown_views_route _ _ _ true false false).
Qed.

(** An unknown hash on a page that shows the tool. *)
Lemma script_route_witness :
  shown_views
    (ScriptJs.handleRoute (lit "#/nowhere")
       (ScriptJs.mkViews ["hidden"%string] [] ["hidden"%string]))
  = (true, false, false).
Proof.
  apply (script_route (lit "#/nowhere")
           (ScriptJs.mkViews ["hidden"%string] [] ["hidden"%string]));
    discriminate.
Defined.

(** X15: the router of the later script accepts both spellings.  The tool
    is shown exactly for "#base64" and "#/base64", the dashboard exactly
    for "#aimo" and "#/aimo", and then and only then the dashboard is
    rendered; every other hash shows the home view.  A hash that the
    earlier router sends to the tool or to the dashboard is sent to the
    same view. *)
Theorem site_route (Dashboard : Type)
    (renderAimoDashboard : Dashboard -> Dashboard) (hash : jsstring)
    (v : ScriptJs.Views) (board : Dashboard) :
  let r := SiteScript.handleRoute Dashboard renderAimoDashboard hash (v, board) in
  (hash = lit "#base64" \/ hash = lit "#/base64" ->
   shown_views (fst r) = (false, true, false) /\ snd r = board) /\
  (hash = lit "#aimo" \/ hash = lit "#/aimo" ->
   shown_views (fst r) = (false, false, true) /\
   snd r = renderAimoDashboard board) /\
  (~ (hash = lit "#base64" \/ hash = lit "#/base64") ->
   ~ (hash = lit "#aimo" \/ hash = lit "#/aimo") ->
   shown_views (fst r) = (true, false, false) /\ snd r = board) /\
  (shown_views (ScriptJs.handleRoute hash v) <> (true, false, false) ->
   shown_views (fst r) = shown_views (ScriptJs.handleRoute hash v)).
Proof.
  intros r.
  assert (Htool : hash = lit "#base64" \/ hash = lit "#/base64" ->
            shown_views (fst r) = (false, true, false) /\ snd r = board).
  { intros H. apply route_tool_iff in H. unfold r, SiteScript.handleRoute.
    rewrite H. split; [|reflexivity].
    apply (shown_views_route _ _ _ false true false). }
  assert (Haimo : hash = lit "#aimo" \/ hash = lit "#/aimo" ->
            shown_views (fst r) = (false, false, true) /\
            snd r = renderAimoDashboard board).
  { intros H.
    assert (Hno : JSPrim.str_eqb
                    (JSPrim.replace hash (lit "#/") (lit "#"))
                    (lit "#base64") = false)
      by (destruct H as [-> | ->]; reflexivity).
    apply route_aimo_iff in H. unfold r, SiteScript.handleRoute.
    rewrite Hno, H. split; [|reflexivity].
    apply (shown_views_route _ _ _ false false true). }
  split; [exact Htool|]. split; [exact Haimo|]. split.
  - intros H1 H2. unfold r, SiteScript.handleRoute.
    destruct (JSPrim.str_eqb _ (lit "#base64")) eqn:E1;
      [apply route_tool_iff in E1; contradiction|].
    destruct (JSPrim.str_eqb _ (lit "#aimo")) eqn:E2;
      [apply route_aimo_iff in E2; contradiction|].
    split; [|reflexivity].
    apply (shown_views_route _ _ _ true false false).
  - intros Hnot.
    destruct (script_route_cases hash v) as [[-> Hs]|[[-> Hs]|Hs]].
    + rewrite Hs. apply Htool. now right.
    + rewrite Hs. apply Haimo. now right.
    + contradiction.
Qed.

(** The old spelling of the dashboard. *)
Lemma site_route_witness :
  shown_views
    (fst (SiteScript.handleRoute nat (fun n : nat => S n) (lit "#/aimo")
            (ScriptJs.mkViews [] ["hidden"%string] ["hidden"%string], 0%nat)))
  = (false, false, true) /\
  snd (SiteScript.handleRoute nat (fun n : nat => S n) (lit "#/aimo")
         (ScriptJs.mkViews [] ["hidden"%string] ["hidden"%string], 0%nat))
  = 1%nat.
Proof.
  apply (site_route nat (fun n : nat => S n) (lit "#/aimo")
           (ScriptJs.mkViews [] ["hidden"%string] ["hidden"%string]) 0%nat).
  now right.
Defined.

(** ** From the text to the preview *)

Section PreviewFacts.
Import DataView.
Local Open Scope Z_scope.

Lemma scan_well_formed (blob : Blob) (names : list (list byte)) :
  well_formed_archive (arrayBuffer blob) names ->
  getZipFileList blob = Ok (map TextDecoder.decode names).
Proof.
  intros (e & Ha & Hcount & Hcd).
  rewrite (scan_eocd _ _ Ha), Hcount, Nat2Z.id.
  rewrite (walk_central_directory _ _ _ Hcd); [reflexivity|].
  apply uint32_le_range.
Qed.

Lemma well_formed_nonempty (view : list byte) (names : list (list byte)) :
  well_formed_archive view names -> view <> [].
Proof.
  intros (e & ((Hlo & Hhi) & _) & _) ->.
  unfold byteLength in *. simpl in *. lia.
Qed.
End PreviewFacts.

(** X16: the preview of an archive.  When the bytes of a well-formed
    archive were encoded, cut into lines and stored in reversed order in a
    file, the success panel lists the decoded entry names of the archive in
    directory order (one placeholder item if it has no entry) and counts
    them. *)
Theorem script_preview_lists_archive (toLowerCase : jsstring -> jsstring)
    (platform_message : exn -> string) (B : list byte)
    (names : list (list byte)) (pieces : list jsstring) (file : File)
    (T : jsstring) (now : N) (s : ScriptJs.State * ScriptJs.Dom) :
  well_formed_archive B names ->
  concat pieces = Base64.base64_encode B ->
  joined_lines (rev pieces) T ->
  file_read file = onload (Some T) ->
  let s' :=
    ScriptJs.processFile toLowerCase platform_message (Some file) now s in
  ScriptJs.status (fst s') = ScriptJs.SUCCESS /\
  ScriptJs.fileListContainer (snd s')
  = rendered_files (map TextDecoder.decode names) /\
  ScriptJs.successFileCount (snd s')
  = ScriptJs.found_text (length names).
Proof.
  intros Hwf Hcat Hjoin Hr s'.
  pose proof (well_formed_nonempty _ _ Hwf) as HB.
  destruct (convert_encoded B pieces T HB Hcat Hjoin) as [Hne Hok].
  destruct (processFile_ok toLowerCase platform_message file now s T _
              (read_text _ _ Hr Hne) Hok) as (files & Hscan & Hrun).
  rewrite (scan_well_formed (mkBlob B "application/zip") names Hwf) in Hscan.
  inversion Hscan. subst files.
  destruct (setStatus_success_list (map TextDecoder.decode names)
              (ScriptJs.mkState ScriptJs.PROCESSING
                 (Some (mkBlob B "application/zip"))
                 (JSPrim.number_to_string now ++ lit ".zip"),
               snd (ScriptJs.setStatus ScriptJs.PROCESSING
                      (ScriptJs.displayFileName toLowerCase file) [] s)))
    as [Hlist Hcount].
  unfold s'. rewrite Hrun.
  split; [now rewrite setStatus_status|].
  split; [exact Hlist|]. rewrite Hcount. now rewrite length_map.
Qed.

(** The archive with the one entry "test.txt", stored as one line. *)
Lemma script_preview_lists_archive_witness :
  ScriptJs.fileListContainer
    (snd (ScriptJs.processFile ascii_lower (fun _ => EmptyString)
            (Some (text_file
                     (Base64.base64_encode (blob_bytes test_txt_archive))))
            1700000000000 (ScriptJs.initial_state, blank_dom)))
  = rendered_files
      (map TextDecoder.decode [list_byte_of_string "test.txt"]).
Proof.
  refine (proj1 (proj2
    (script_preview_lists_archive ascii_lower (fun _ => EmptyString)
       (blob_bytes test_txt_archive) [list_byte_of_string "test.txt"]
       [Base64.base64_encode (blob_bytes test_txt_archive)]
       (text_file (Base64.base64_encode (blob_bytes test_txt_archive)))
       (Base64.base64_encode (blob_bytes test_txt_archive))
       1700000000000 (ScriptJs.initial_state, blank_dom) _ _ _ _))).
  - exists 54%Z. split; [eocd_at_end|]. split; [reflexivity|].
    apply cd_header.
    + vm_compute. discriminate.
    + reflexivity.
    + reflexivity.
    + reflexivity.
    + apply cd_end.
  - apply app_nil_r.
  - apply joined_last.
  - reflexivity.
Defined.
